(** * Wolfee market dashboard: session cache, staged loading, merge, filter
      and portfolio store.

    A shallow embedding of the client code (main.js, api.js, portfolio.js,
    filters.js) and the properties of the staged-loading subsystem.

    Modelling conventions.
    - A JavaScript number is [number]: NaN, the two infinities, or a finite
      value kept as an exact rational (every finite double is a rational;
      rounding of decimal literals to binary64 is not modelled, comparisons
      are exact).  [-0] and [+0] are identified: the code only compares
      numbers and tests their truthiness, which do not tell them apart.
    - An optional indicator of a record ([rsi], [volume]) is a [jsval]: the
      property is missing ([JUndefined]), [null] ([JNull]) or a number.
    - [sessionStorage] is a [gmap string item].  The methods [getItem],
      [setItem], [removeItem] are lookup, insert and delete.  An [item] is
      the stored text: a plain string, or the JSON text of a value, which is
      identified with the value it denotes ([JSON.parse (JSON.stringify v)]
      is [v] for the JSON data stored here).
    - The outcome of [fetch] and the value of [Date.now ()] are arguments of
      the function that awaits or reads them.
    - A string holds the text in UTF-8.  The string functions of the host
      that follow the Unicode tables or the locale ([localeCompare],
      [toLowerCase], [trim]) are parameters of the functions that call
      them. *)

From Stdlib Require Import ZArith QArith Qpower String Ascii List Bool Lia.
From Stdlib Require Import DecimalString DecimalN Permutation Sorted.
From stdpp Require Import base option list gmap strings.

Import ListNotations.
Local Open Scope Z_scope.
Local Open Scope string_scope.
Local Open Scope list_scope.

(** ** JavaScript numbers *)

Inductive number :=
  | NaN
  | PosInf
  | NegInf
  | Fin (q : Q).

(** [a < b] of JavaScript: false as soon as one side is NaN. *)
Definition num_lt (a b : number) : bool :=
  match a, b with
  | NaN, _ | _, NaN => false
  | PosInf, _ => false
  | _, NegInf => false
  | NegInf, _ => true
  | Fin _, PosInf => true
  | Fin x, Fin y => negb (Qle_bool y x)
  end.

(** [a > b] is [b < a]. *)
Definition num_gt (a b : number) : bool := num_lt b a.

(** [a - b]. *)
Definition num_sub (a b : number) : number :=
  match a, b with
  | NaN, _ | _, NaN => NaN
  | PosInf, PosInf | NegInf, NegInf => NaN
  | PosInf, _ => PosInf
  | NegInf, _ => NegInf
  | Fin _, PosInf => NegInf
  | Fin _, NegInf => PosInf
  | Fin x, Fin y => Fin (x - y)
  end.

(** Truthiness of a number: NaN and zero are falsy. *)
Definition num_truthy (a : number) : bool :=
  match a with
  | NaN => false
  | Fin q => negb (Qeq_bool q 0)
  | _ => true
  end.

(** [a || d] on numbers. *)
Definition num_or (a d : number) : number :=
  if num_truthy a then a else d.

Definition of_Z (z : Z) : number := Fin (inject_Z z).

(** ** Optional values of a record property *)

Inductive jsval :=
  | JUndefined
  | JNull
  | JNum (q : Q).

(** ToNumber, as applied by the relational operators. *)
Definition toNumber (v : jsval) : number :=
  match v with
  | JUndefined => NaN
  | JNull => Fin 0
  | JNum q => Fin q
  end.

(** ** Strings *)

(** [s.endsWith (suffix)]. *)
Definition endsWith (s suffix : string) : bool :=
  let n := String.length s in
  let k := String.length suffix in
  (k <=? n)%nat && String.eqb (substring (n - k) k s) suffix.

Definition is_digit (c : ascii) : bool :=
  let n := nat_of_ascii c in (48 <=? n)%nat && (n <=? 57)%nat.

(** White space skipped by [parseInt] and [parseFloat] (the ASCII part of
    StrWhiteSpaceChar). *)
Definition is_space (c : ascii) : bool :=
  let n := nat_of_ascii c in
  ((9 <=? n)%nat && (n <=? 13)%nat) || (n =? 32)%nat.

Fixpoint skip_spaces (s : string) : string :=
  match s with
  | String c r => if is_space c then skip_spaces r else s
  | EmptyString => s
  end.

(** The longest prefix of decimal digits, and what follows it. *)
Fixpoint span_digits (s : string) : string * string :=
  match s with
  | String c r =>
      if is_digit c then let '(d, t) := span_digits r in (String c d, t)
      else (EmptyString, s)
  | EmptyString => (EmptyString, EmptyString)
  end.

(** The value of a string of decimal digits. *)
Definition digits_value (d : string) : N :=
  match NilEmpty.uint_of_string d with
  | Some u => N.of_uint u
  | None => 0%N
  end.

(** An optional sign: [(negative, rest)]. *)
Definition read_sign (s : string) : bool * string :=
  match s with
  | String "-" r => (true, r)
  | String "+" r => (false, r)
  | _ => (false, s)
  end.

(** The value of a hexadecimal digit. *)
Definition hex_digit (c : ascii) : option N :=
  let n := N_of_ascii c in
  if is_digit c then Some (n - 48)%N
  else if ((97 <=? n) && (n <=? 102))%N then Some (n - 87)%N
  else if ((65 <=? n) && (n <=? 70))%N then Some (n - 55)%N
  else None.

(** The value of the longest prefix of hexadecimal digits; [None] when
    there is no digit. *)
Fixpoint read_hex (acc : option N) (s : string) : option N :=
  match s with
  | String c r =>
      match hex_digit c with
      | Some d =>
          read_hex (Some (16 * match acc with Some a => a | None => 0 end + d)%N) r
      | None => acc
      end
  | EmptyString => acc
  end.

Definition read_decimal (s : string) : option N :=
  let '(d, _) := span_digits s in
  match d with
  | EmptyString => None
  | _ => Some (digits_value d)
  end.

(** [parseInt (s)] without radix: white space, an optional sign, then the
    longest run of digits, hexadecimal after the prefix [0x] and decimal
    otherwise; NaN when there is no digit. *)
Definition parseInt (s : string) : number :=
  let '(neg, r) := read_sign (skip_spaces s) in
  let magnitude :=
    match r with
    | String "0" (String "x" t) | String "0" (String "X" t) => read_hex None t
    | _ => read_decimal r
    end in
  match magnitude with
  | None => NaN
  | Some n => of_Z (if neg then - Z.of_N n else Z.of_N n)
  end.

(** [z.toString ()] for an integer. *)
Definition toString (z : Z) : string :=
  if (z <? 0)%Z then String "-" (NilEmpty.string_of_uint (N.to_uint (Z.abs_N z)))
  else NilEmpty.string_of_uint (N.to_uint (Z.to_N z)).

(** [parseFloat (s)]: white space, then the longest prefix that is a
    StrDecimalLiteral: an optional sign, then [Infinity] or digits with an
    optional fraction and an optional exponent; NaN when there is none. *)
Definition read_exponent (s : string) : Z :=
  match s with
  | String c t =>
      if (Ascii.eqb c "e" || Ascii.eqb c "E")%bool then
        let '(neg, t') := read_sign t in
        let '(d, _) := span_digits t' in
        match d with
        | EmptyString => 0
        | _ => let n := Z.of_N (digits_value d) in if neg then - n else n
        end
      else 0
  | EmptyString => 0
  end.

Definition parseFloat_text (s : string) : number :=
  let '(neg, r) := read_sign (skip_spaces s) in
  if String.prefix "Infinity" r then (if neg then NegInf else PosInf)
  else
    let '(ip, r1) := span_digits r in
    let '(fp, r2) :=
      match r1 with
      | String "." t => span_digits t
      | _ => (EmptyString, r1)
      end in
    match String.append ip fp with
    | EmptyString => NaN
    | m =>
        let e := read_exponent r2 - Z.of_nat (String.length fp) in
        let q := (inject_Z (Z.of_N (digits_value m)) * (10 # 1) ^ e)%Q in
        Fin (if neg then (- q)%Q else q)
    end.

(** The argument is the [value] of an input element reached through [?.]:
    [None] when the element is missing ([parseFloat (undefined)] is NaN). *)
Definition parseFloat (v : option string) : number :=
  match v with
  | Some s => parseFloat_text s
  | None => NaN
  end.

(** ** Records and stored data *)

(** A record of the market data.  [price] and [change_pct] are numbers (the
    cards call [price.toFixed] and compare [change_pct] without a guard);
    [rsi] and [volume] are optional (the cards guard them).  The other
    properties of a record (currency, moving average, prediction, ...) play
    no part in the functions modelled here. *)
Record Stock := {
  symbol : string;
  name : string;
  price : Q;
  change_pct : Q;
  rsi : jsval;
  volume : jsval;
}.

(** The body of /api/market-data/quick and /full: an object whose [stocks]
    property is an array, or is missing. *)
Record MarketData := { stocks : option (list Stock) }.

(** A value of [sessionStorage]. *)
Inductive item :=
  | IText (s : string)
  | IData (d : MarketData)
  | IList (l : list Stock).

(** Truthiness of the stored text: a JSON text is never empty. *)
Definition item_truthy (i : item) : bool :=
  match i with
  | IText s => negb (String.eqb s "")
  | _ => true
  end.

(** [parseInt] of the stored text: a JSON object or array starts with a
    brace or a bracket. *)
Definition item_parseInt (i : item) : number :=
  match i with
  | IText s => parseInt s
  | _ => NaN
  end.

(** [JSON.parse] of the market-data entry, for [processData]; [None] when
    it throws, or gives null (on which [processData] throws). *)
Definition item_data (i : item) : option MarketData :=
  match i with
  | IData d => Some d
  | IList _ => Some {| stocks := None |}
  | IText _ => None
  end.

(** ** Page state *)

Inductive notice := LoadingStocks | NoMatch | LoadFailed.

(** A child of the stock grid: a card, or a paragraph with a notice. *)
Inductive node :=
  | Card (s : Stock)
  | Notice (m : notice).

Record State := {
  sessionStorage : gmap string item;
  allStocks : option (list Stock);   (* window.allStocks; None: undefined *)
  currentSymbol : option string;     (* None: null *)
  region_toggle : option bool;       (* the region switch: checked *)
  stock_grid : list node;
}.

Definition with_storage (st : State) (m : gmap string item) : State :=
  {| sessionStorage := m; allStocks := allStocks st;
     currentSymbol := currentSymbol st; region_toggle := region_toggle st;
     stock_grid := stock_grid st |}.

Definition with_allStocks (st : State) (l : option (list Stock)) : State :=
  {| sessionStorage := sessionStorage st; allStocks := l;
     currentSymbol := currentSymbol st; region_toggle := region_toggle st;
     stock_grid := stock_grid st |}.

Definition with_grid (st : State) (g : list node) : State :=
  {| sessionStorage := sessionStorage st; allStocks := allStocks st;
     currentSymbol := currentSymbol st; region_toggle := region_toggle st;
     stock_grid := g |}.

Definition getItem (k : string) (st : State) : option item :=
  sessionStorage st !! k.

Definition setItem (k : string) (v : item) (st : State) : State :=
  with_storage st (<[k := v]> (sessionStorage st)).

Definition removeItem (k : string) (st : State) : State :=
  with_storage st (delete k (sessionStorage st)).

(** [toggle ? toggle.checked : false]. *)
Definition isGlobalMode (st : State) : bool :=
  match region_toggle st with
  | Some checked => checked
  | None => false
  end.

Definition isStockGlobal (s : Stock) : bool := negb (endsWith (symbol s) ".IS").

(** The region test of [processData], [applyFilters] and the merge. *)
Definition inRegion (global : bool) (s : Stock) : bool :=
  if global then isStockGlobal s else negb (isStockGlobal s).

(** [renderStockCard]. *)
Definition renderStockCard (s : Stock) (st : State) : State :=
  with_grid st (stock_grid st ++ [Card s]).

Definition renderAll (l : list Stock) (st : State) : State :=
  fold_left (fun acc s => renderStockCard s acc) l st.

(** ** main.js *)

Definition processData (data : MarketData) (st : State) : State :=
  let all := match stocks data with Some l => l | None => [] end in
  let st1 := with_grid (with_allStocks st (Some all)) [] in
  let displayStocks := List.filter (inRegion (isGlobalMode st1)) all in
  match displayStocks with
  | [] => with_grid st1 [Notice LoadingStocks]
  | _ => renderAll displayStocks st1
  end.

(** The outcome of awaiting [fetch] and then [response.json ()]. *)
Inductive body :=
  | NotJson
  | Json (d : MarketData)
  | JsonNull.   (* the JSON text null: reading [data.stocks] throws *)

Inductive fetched :=
  | Rejected
  | Responded (status : nat) (b : body).

(** [response.ok]. *)
Definition ok (status : nat) : bool :=
  (200 <=? status)%nat && (status <=? 299)%nat.

Definition cache_write (data : MarketData) (now : Z) (st : State) : State :=
  setItem "wolfee_cache_time" (IText (toString now))
    (setItem "wolfee_market_data" (IData data) st).

(** The two writes when the body is [null]: [JSON.stringify (null)] is the
    text null.  (Read back by [init], the text parses and
    [processData (null)] throws at its first statement, before any effect:
    for the caller that is the case [None] of [item_data].) *)
Definition cache_write_null (now : Z) (st : State) : State :=
  setItem "wolfee_cache_time" (IText (toString now))
    (setItem "wolfee_market_data" (IText "null") st).

(** Stage 1.  The result says whether the function threw. *)
Definition fetchQuickBatch (r : fetched) (now : Z) (st : State)
  : State * bool :=
  match r with
  | Rejected => (st, true)
  | Responded status b =>
      if negb (ok status) then (st, true)
      else match b with
           | NotJson => (st, true)
           | Json data =>
               let st' := processData data (cache_write data now st) in
               (* the log line reads data.stocks.length *)
               match stocks data with
               | Some _ => (st', false)
               | None => (st', true)
               end
           | JsonNull =>
               (* stored, then processData (null) throws *)
               (cache_write_null now st, true)
           end
  end.

(** The records of [incoming] whose symbol no record of [currentStocks]
    carries. *)
Definition newStocksOf (currentStocks incoming : list Stock) : list Stock :=
  List.filter
    (fun newStock =>
       negb (existsb (fun existing => String.eqb (symbol existing) (symbol newStock))
               currentStocks))
    incoming.

(** The merge step of stage 2 on the working set: the new value of
    [window.allStocks] and the records that are new. *)
Definition merge (ws : option (list Stock)) (incoming : list Stock)
  : option (list Stock) * list Stock :=
  let currentStocks := match ws with Some l => l | None => [] end in
  let newStocks := newStocksOf currentStocks incoming in
  match newStocks with
  | [] => (ws, newStocks)
  | _ => (Some (currentStocks ++ newStocks), newStocks)
  end.

(** Stage 2. *)
Definition fetchFullBatchInBackground (r : fetched) (now : Z) (st : State)
  : State :=
  match r with
  | Rejected => st
  | Responded status b =>
      if negb (ok status) then st
      else match b with
           | NotJson => st
           | Json data =>
               let st1 := cache_write data now st in
               match stocks data with
               | None => st1   (* data.stocks.filter throws, and is caught *)
               | Some incoming =>
                   let '(ws, newStocks) := merge (allStocks st1) incoming in
                   let st2 := with_allStocks st1 ws in
                   renderAll (List.filter (inRegion (isGlobalMode st2)) newStocks) st2
               end
           | JsonNull =>
               (* stored, then data.stocks throws, and is caught *)
               cache_write_null now st
           end
  end.

(** Stage 2 in the other revision of main.js: the whole list replaces the
    working set. *)
Definition fetchFullBatch (r : fetched) (now : Z) (st : State) : State :=
  match r with
  | Rejected => st
  | Responded status b =>
      if negb (ok status) then st
      else match b with
           | NotJson => st
           | Json data =>
               match stocks data with
               | Some (_ :: _) => processData data (cache_write data now st)
               | _ => st
               end
           | JsonNull => st   (* data.stocks throws, and is caught *)
           end
  end.

(** [cachedData && cacheTime && (now - parseInt (cacheTime)) < 300000]. *)
Definition cacheValid (now : Z) (st : State) : bool :=
  match getItem "wolfee_market_data" st, getItem "wolfee_cache_time" st with
  | Some cachedData, Some cacheTime =>
      item_truthy cachedData && item_truthy cacheTime
      && num_lt (num_sub (of_Z now) (item_parseInt cacheTime)) (of_Z 300000)
  | _, _ => false
  end.

(** The functions that [init] starts, in order. *)
Inductive call :=
  | CallFetchQuickBatch
  | CallFetchFullBatchInBackground
  | CallLoadAIInsight
  | CallLoadOpportunities.

(** [init]: the state when it settles (stage 2 and the two loaders run
    later, on their own) and the calls it made.  [now] is read at the cache
    check, [nowQuick] when stage 1 writes the cache. *)
Definition init (now : Z) (quick : fetched) (nowQuick : Z) (st : State)
  : State * list call :=
  if cacheValid now st then
    match getItem "wolfee_market_data" st ≫= item_data with
    | Some data => (processData data st, [CallLoadAIInsight; CallLoadOpportunities])
    | None => (st, [])   (* JSON.parse, or processData (null), throws *)
    end
  else
    match fetchQuickBatch quick nowQuick st with
    | (st', false) =>
        (st', [CallFetchQuickBatch; CallFetchFullBatchInBackground;
               CallLoadAIInsight; CallLoadOpportunities])
    | (st', true) => (with_grid st' [Notice LoadFailed], [CallFetchQuickBatch])
    end.

(** ** api.js *)

(** The three [removeItem] calls that open [refreshMarket]. *)
Definition refreshMarket_clear (st : State) : State :=
  removeItem "wolfee_opportunities"
    (removeItem "wolfee_ai_insight"
       (removeItem "wolfee_market_data" st)).

Definition refreshMarket (now : Z) (quick : fetched) (nowQuick : Z) (st : State)
  : State * list call :=
  init now quick nowQuick (refreshMarket_clear st).

(** ** portfolio.js *)

(** [raw ? JSON.parse (raw) : []]; [None] when the stored text is not the
    JSON text of a list (the key is written by [savePortfolio] only). *)
Definition getPortfolio (st : State) : option (list Stock) :=
  match getItem "wolfee_portfolio" st with
  | None => Some []
  | Some (IList l) => Some l
  | Some (IText EmptyString) => Some []
  | Some _ => None
  end.

Definition savePortfolio (l : list Stock) (st : State) : State :=
  setItem "wolfee_portfolio" (IList l) st.

(** [l.findIndex (f)]: the first index where [f] holds, or -1. *)
Fixpoint findIndex {A : Type} (f : A -> bool) (l : list A) : Z :=
  match l with
  | [] => -1
  | x :: r =>
      if f x then 0
      else let i := findIndex f r in if (i <? 0)%Z then -1 else i + 1
  end.

Definition hasSymbol (k : string) (s : Stock) : bool := String.eqb (symbol s) k.

(** [togglePortfolioItem]; an exception leaves the state as it is. *)
Definition togglePortfolioItem (st : State) : State :=
  match currentSymbol st with
  | None => st
  | Some cur =>
      if String.eqb cur "" then st
      else
        match allStocks st with
        | None => st
        | Some all =>
            match find (hasSymbol cur) all with
            | None => st
            | Some stock =>
                match getPortfolio st with
                | None => st
                | Some l =>
                    let existingIndex := findIndex (hasSymbol cur) l in
                    let l' :=
                      if (0 <=? existingIndex)%Z
                      then delete (Z.to_nat existingIndex) l   (* splice (i, 1) *)
                      else l ++ [stock] in                     (* push *)
                    savePortfolio l' st
                end
            end
        end
  end.

(** [portfolio.some (s => s.symbol === k)], the membership test of
    [updatePortfolioButtonUI]. *)
Definition inPortfolio (k : string) (l : list Stock) : bool :=
  existsb (hasSymbol k) l.

(** ** filters.js *)

(** The values of the seven inputs of the filter popover. *)
Record FilterInputs := {
  filter_price_min : option string;
  filter_price_max : option string;
  filter_rsi_min : option string;
  filter_rsi_max : option string;
  filter_change_min : option string;
  filter_change_max : option string;
  filter_vol_min : option string;
}.

Definition noFilters : FilterInputs :=
  {| filter_price_min := Some ""; filter_price_max := Some "";
     filter_rsi_min := Some ""; filter_rsi_max := Some "";
     filter_change_min := Some ""; filter_change_max := Some "";
     filter_vol_min := Some "" |}.

Definition set_price_min (v : option string) (i : FilterInputs) : FilterInputs :=
  {| filter_price_min := v; filter_price_max := filter_price_max i;
     filter_rsi_min := filter_rsi_min i; filter_rsi_max := filter_rsi_max i;
     filter_change_min := filter_change_min i;
     filter_change_max := filter_change_max i;
     filter_vol_min := filter_vol_min i |}.

Definition set_price_max (v : option string) (i : FilterInputs) : FilterInputs :=
  {| filter_price_min := filter_price_min i; filter_price_max := v;
     filter_rsi_min := filter_rsi_min i; filter_rsi_max := filter_rsi_max i;
     filter_change_min := filter_change_min i;
     filter_change_max := filter_change_max i;
     filter_vol_min := filter_vol_min i |}.

Definition set_vol_min (v : option string) (i : FilterInputs) : FilterInputs :=
  {| filter_price_min := filter_price_min i;
     filter_price_max := filter_price_max i;
     filter_rsi_min := filter_rsi_min i; filter_rsi_max := filter_rsi_max i;
     filter_change_min := filter_change_min i;
     filter_change_max := filter_change_max i;
     filter_vol_min := v |}.

(** The bounds after parsing and defaulting. *)
Record Bounds := {
  priceMin : number; priceMax : number;
  rsiMin : number; rsiMax : number;
  changeMin : number; changeMax : number;
  volMin : number;
}.

Definition readBounds (i : FilterInputs) : Bounds :=
  {| priceMin := num_or (parseFloat (filter_price_min i)) (Fin 0);
     priceMax := num_or (parseFloat (filter_price_max i)) PosInf;
     rsiMin := num_or (parseFloat (filter_rsi_min i)) (Fin 0);
     rsiMax := num_or (parseFloat (filter_rsi_max i)) (Fin 100);
     changeMin := num_or (parseFloat (filter_change_min i)) NegInf;
     changeMax := num_or (parseFloat (filter_change_max i)) PosInf;
     volMin := num_or (parseFloat (filter_vol_min i)) (Fin 0) |}.

(** The callback of step 2, "Filter by Values". *)
Definition passesValues (b : Bounds) (stock : Stock) : bool :=
  if num_lt (Fin (price stock)) (priceMin b)
     || num_gt (Fin (price stock)) (priceMax b) then false
  else if num_lt (toNumber (rsi stock)) (rsiMin b)
          || num_gt (toNumber (rsi stock)) (rsiMax b) then false
  else if num_lt (Fin (change_pct stock)) (changeMin b)
          || num_gt (Fin (change_pct stock)) (changeMax b) then false
  else if num_lt (toNumber (volume stock)) (volMin b) then false
  else true.

Section Filters.

(** [a.localeCompare (b)]: the collation order of the host, negative,
    zero or positive. *)
Variable localeCompare : string -> string -> Z.

(** [Array.prototype.sort] with the comparator
    [(a, b) => a.symbol.localeCompare (b.symbol)]; the sort is stable. *)
Fixpoint sort_insert (x : Stock) (l : list Stock) : list Stock :=
  match l with
  | [] => [x]
  | y :: r =>
      if (localeCompare (symbol x) (symbol y) <=? 0)%Z then x :: l
      else y :: sort_insert x r
  end.

Fixpoint sortBySymbol (l : list Stock) : list Stock :=
  match l with
  | [] => []
  | x :: r => sort_insert x (sortBySymbol r)
  end.

(** The list [filtered] that [applyFilters] renders. *)
Definition filterStocks (i : FilterInputs) (global : bool)
    (all : list Stock) : list Stock :=
  let b := readBounds i in
  let filtered := List.filter (inRegion global) all in
  let filtered := List.filter (passesValues b) filtered in
  if global then sortBySymbol filtered else filtered.

(** [applyFilters], the stock grid being present. *)
Definition applyFilters (i : FilterInputs) (st : State) : State :=
  let st1 := with_grid st [] in
  match allStocks st with
  | None => st1
  | Some all =>
      match filterStocks i (isGlobalMode st) all with
      | [] => with_grid st1 [Notice NoMatch]
      | filtered => renderAll filtered st1
      end
  end.

End Filters.

(** ** Definitions used by the statements *)

(** The working set as a list: [window.allStocks || []]. *)
Definition workingSet (ws : option (list Stock)) : list Stock :=
  match ws with
  | Some l => l
  | None => []
  end.

(** The working set after merging the snapshots in order. *)
Definition mergeAll (ws : option (list Stock)) (snapshots : list (list Stock))
  : option (list Stock) :=
  fold_left (fun acc snapshot => fst (merge acc snapshot)) snapshots ws.

(** The failures that stop a stage before its first write: the request is
    rejected, the status is not a success, or the body is not JSON. *)
Definition failed (r : fetched) : bool :=
  match r with
  | Rejected => true
  | Responded status NotJson => true
  | Responded status (Json _) => negb (ok status)
  | Responded status JsonNull => negb (ok status)
  end.

(** The record that [togglePortfolioItem] resolves for the current symbol
    from the working set, when there is one. *)
Definition resolve (st : State) : option Stock :=
  match currentSymbol st, allStocks st with
  | Some cur, Some all =>
      if String.eqb cur "" then None else find (hasSymbol cur) all
  | _, _ => None
  end.

(** The list that one toggle of key [k] makes of portfolio [p]. *)
Definition toggled (k : string) (stock : Stock) (p : list Stock) : list Stock :=
  if (0 <=? findIndex (hasSymbol k) p)%Z
  then delete (Z.to_nat (findIndex (hasSymbol k) p)) p
  else p ++ [stock].

(** The states of the page, as far as the portfolio goes: nothing is stored
    at first, [togglePortfolioItem] is the only function that writes the
    key, and everything else leaves it alone. *)
Inductive portfolioReachable : State -> Prop :=
  | reach_start (st : State) :
      getItem "wolfee_portfolio" st = None → portfolioReachable st
  | reach_toggle (st : State) :
      portfolioReachable st → portfolioReachable (togglePortfolioItem st)
  | reach_frame (st st' : State) :
      portfolioReachable st →
      getItem "wolfee_portfolio" st' = getItem "wolfee_portfolio" st →
      portfolioReachable st'.

(** The three checks of [passesValues] before the volume check. *)
Definition passesOther (b : Bounds) (stock : Stock) : bool :=
  negb (num_lt (Fin (price stock)) (priceMin b)
        || num_gt (Fin (price stock)) (priceMax b))
  && negb (num_lt (toNumber (rsi stock)) (rsiMin b)
           || num_gt (toNumber (rsi stock)) (rsiMax b))
  && negb (num_lt (Fin (change_pct stock)) (changeMin b)
           || num_gt (Fin (change_pct stock)) (changeMax b)).

(** The indicators of a record lie in their natural range: an RSI that is
    present is between 0 and 100, a volume that is present is not
    negative. *)
Definition indicatorsInRange (s : Stock) : bool :=
  match rsi s with
  | JNum q => Qle_bool 0 q && Qle_bool q 100
  | _ => true
  end
  && match volume s with
     | JNum q => Qle_bool 0 q
     | _ => true
     end.

(** [a] sorts before [b], or the comparator does not tell them apart. *)
Definition symbolLe (localeCompare : string -> string -> Z) (a b : Stock) : Prop :=
  (localeCompare (symbol a) (symbol b) <= 0)%Z.

(** A consistent comparator to run the sort on: the order of the code
    units. *)
Definition codeUnitCompare (a b : string) : Z :=
  match String.compare a b with
  | Lt => -1
  | Eq => 0
  | Gt => 1
  end.

(** ** Sample data *)

(** A record with the given symbol and price and no indicators. *)
Definition quote (s : string) (p : Q) : Stock :=
  {| symbol := s; name := s; price := p; change_pct := 0;
     rsi := JUndefined; volume := JUndefined |}.

(** A fresh page: nothing stored, nothing shown, the region switch on
    GLOBAL. *)
Definition freshPage : State :=
  {| sessionStorage := ∅; allStocks := None; currentSymbol := None;
     region_toggle := Some true; stock_grid := [] |}.

Definition success (l : list Stock) : fetched :=
  Responded 200 (Json {| stocks := Some l |}).

(** A page after a successful stage 1 at time 1000, with an insight, an
    opportunities list and a portfolio stored. *)
Definition loadedPage : State :=
  setItem "wolfee_portfolio" (IList [quote "AAA" 10])
    (setItem "wolfee_opportunities" (IList [quote "AAA" 10])
       (setItem "wolfee_ai_insight" (IText "Markets are calm.")
          (fst (fetchQuickBatch (success [quote "AAA" 10]) 1000 freshPage)))).

(** [openModal] sets the current symbol. *)
Definition with_currentSymbol (st : State) (k : option string) : State :=
  {| sessionStorage := sessionStorage st; allStocks := allStocks st;
     currentSymbol := k; region_toggle := region_toggle st;
     stock_grid := stock_grid st |}.

(** The page after stage 1, the modal open on AAA. *)
Definition viewingAAA : State :=
  with_currentSymbol
    (fst (fetchQuickBatch (success [quote "AAA" 10; quote "BBB" 5]) 1000 freshPage))
    (Some "AAA").

Definition price1020 : FilterInputs :=
  set_price_max (Some "20") (set_price_min (Some "10") noFilters).

Definition sampleStocks : list Stock :=
  [ {| symbol := "MSFT"; name := "Microsoft"; price := 15; change_pct := 1;
       rsi := JNum 55; volume := JNum 1000 |};
    {| symbol := "THYAO.IS"; name := "THY"; price := 12; change_pct := -1;
       rsi := JNull; volume := JUndefined |};
    {| symbol := "AAPL"; name := "Apple"; price := 18; change_pct := 0;
       rsi := JUndefined; volume := JNull |};
    {| symbol := "AKBNK.IS"; name := "Akbank"; price := 52; change_pct := 2;
       rsi := JNum 71; volume := JNum 5 |} ].

Definition nullVolume : Stock :=
  {| symbol := "AAPL"; name := "Apple"; price := 18; change_pct := 0;
     rsi := JUndefined; volume := JNull |}.

Definition noVolume : Stock :=
  {| symbol := "THYAO.IS"; name := "THY"; price := 12; change_pct := -1;
     rsi := JNull; volume := JUndefined |}.

(** ** Search (main.js, [initSearch]) *)

(** [s.includes (q)], on the code units of the text in UTF-8. *)
Fixpoint includes (s q : string) : bool :=
  String.prefix q s
  || match s with
     | String _ r => includes r q
     | EmptyString => false
     end.

(** The results panel: its class [hidden] and its children. *)
Inductive panelContent :=
  | Items (l : list Stock)
  | NoResultsFound.

Record SearchPanel := {
  panel_hidden : bool;
  panel_content : panelContent;
}.

(** The page with the script variable [allStocks] of main.js ([let
    allStocks = []]), which is not [window.allStocks], the results panel,
    and the number of [input] listeners that [initSearch] has added to the
    search box. *)
Record Page := {
  page_state : State;
  let_allStocks : list Stock;
  search_panel : SearchPanel;
  input_listeners : nat;
}.

(** [processData] assigns the list to both variables.  It calls
    [initSearch], which adds one more listener, only when it has drawn
    cards: with no record to show it returns before. *)
Definition processDataPage (data : MarketData) (pg : Page) : Page :=
  let all := match stocks data with Some l => l | None => [] end in
  {| page_state := processData data (page_state pg);
     let_allStocks := all;
     search_panel := search_panel pg;
     input_listeners :=
       match List.filter (inRegion (isGlobalMode (page_state pg))) all with
       | [] => input_listeners pg
       | _ => S (input_listeners pg)
       end |}.

(** Stage 2 assigns [window.allStocks] only. *)
Definition fetchFullBatchInBackgroundPage (r : fetched) (now : Z) (pg : Page)
  : Page :=
  {| page_state := fetchFullBatchInBackground r now (page_state pg);
     let_allStocks := let_allStocks pg;
     search_panel := search_panel pg;
     input_listeners := input_listeners pg |}.

Section Search.

(** [String.prototype.toLowerCase] and [String.prototype.trim] are the
    host's: they follow the Unicode tables, over every cased letter and
    every white space character. *)
Variable toLowerCase : string -> string.
Variable trim : string -> string.

(** The callback of [allStocks.filter] in the input handler. *)
Definition searchHit (query : string) (global : bool) (stock : Stock) : bool :=
  if negb (Bool.eqb global (isStockGlobal stock)) then false
  else includes (toLowerCase (symbol stock)) query
       || includes (toLowerCase (name stock)) query.

Definition searchMatches (query : string) (global : bool) (all : list Stock)
  : list Stock :=
  List.filter (searchHit query global) all.

(** The [input] listener that [initSearch] adds; [value] is the text
    typed. *)
Definition onSearchInput (value : string) (pg : Page) : Page :=
  let query := trim (toLowerCase value) in
  let panel :=
    if String.eqb query "" then
      {| panel_hidden := true; panel_content := panel_content (search_panel pg) |}
    else
      match searchMatches query (isGlobalMode (page_state pg)) (let_allStocks pg) with
      | [] => {| panel_hidden := false; panel_content := NoResultsFound |}
      | matches => {| panel_hidden := false; panel_content := Items matches |}
      end in
  {| page_state := page_state pg; let_allStocks := let_allStocks pg;
     search_panel := panel; input_listeners := input_listeners pg |}.

(** An [input] event on the search box: every listener added so far runs,
    one after the other.  With no listener nothing happens. *)
Definition inputEvent (value : string) (pg : Page) : Page :=
  Nat.iter (input_listeners pg) (onSearchInput value) pg.

End Search.

(** ** The AI insight (api.js, [loadAIInsight]) *)

Inductive insightBody :=
  | InsightNotJson
  | InsightJson (insight : option string).
      (* None: no [insight] string, the body null included *)

Inductive insightFetched :=
  | InsightRejected
  | InsightResponded (status : nat) (b : insightBody).

(** [text.replace (/\n/g, '<br>')]. *)
Fixpoint replaceNewlines (s : string) : string :=
  match s with
  | String c r =>
      if Ascii.eqb c "010" then String.append "<br>" (replaceNewlines r)
      else String c (replaceNewlines r)
  | EmptyString => EmptyString
  end.

(** What the element [ai-text] is given. *)
Inductive aiShown :=
  | ShownCached (i : item)      (* the stored text, as it is *)
  | ShownFetched (html : string)
  | ShownOffline.               (* "AI Protocol Offline." *)

Record InsightResult := {
  insight_state : State;
  insight_shown : aiShown;
  insight_requested : bool;     (* whether /insight was fetched *)
}.

(** The [try] block of [loadAIInsight]: fetch, show and store.  The status
    of the response is not looked at. *)
Definition loadAIInsight_fetch (r : insightFetched) (st : State) : InsightResult :=
  match r with
  | InsightResponded _ (InsightJson (Some insight)) =>
      let text := replaceNewlines insight in
      {| insight_state := setItem "wolfee_ai_insight" (IText text) st;
         insight_shown := ShownFetched text; insight_requested := true |}
  | _ =>
      {| insight_state := st; insight_shown := ShownOffline;
         insight_requested := true |}
  end.

Definition loadAIInsight (r : insightFetched) (st : State) : InsightResult :=
  match getItem "wolfee_ai_insight" st with
  | Some cachedInsight =>
      if item_truthy cachedInsight then
        {| insight_state := st; insight_shown := ShownCached cachedInsight;
           insight_requested := false |}
      else loadAIInsight_fetch r st
  | None => loadAIInsight_fetch r st
  end.

(** ** The portfolio button (ui.js, [updatePortfolioButtonUI]) *)

Inductive buttonLabel :=
  | RemoveLabel   (* "Remove" *)
  | AddLabel.     (* "+ Add to Portfolio" *)

(** The label the button is given; [None] when the function returns, or
    throws, before it sets one. *)
Definition updatePortfolioButtonUI (st : State) : option buttonLabel :=
  match currentSymbol st with
  | None => None
  | Some cur =>
      if String.eqb cur "" then None
      else
        match getPortfolio st with
        | None => None
        | Some portfolio =>
            Some (if existsb (fun s => String.eqb (symbol s) cur) portfolio
                  then RemoveLabel else AddLabel)
        end
  end.

(** ** More definitions used by the statements *)

(** Every card of the grid is a record of the working set, of the region
    the switch selects. *)
Definition gridShowsRegion (st : State) : Prop :=
  ∀ s, Card s ∈ stock_grid st →
       s ∈ workingSet (allStocks st) ∧ inRegion (isGlobalMode st) s = true.

(** The cards, or the notice when there is none. *)
Definition cardsOr (m : notice) (l : list Stock) : list node :=
  match l with
  | [] => [Notice m]
  | _ => Card <$> l
  end.

(** The host's two string functions on a text of ASCII characters:
    [toLowerCase] changes the letters A to Z only, and [trim] takes the six
    ASCII white space characters off both ends. *)
Definition lower_ascii (c : ascii) : ascii :=
  let n := nat_of_ascii c in
  if ((65 <=? n) && (n <=? 90))%nat then ascii_of_nat (n + 32) else c.

Fixpoint toLowerCase_ascii (s : string) : string :=
  match s with
  | String c r => String (lower_ascii c) (toLowerCase_ascii r)
  | EmptyString => EmptyString
  end.

Definition trim_ascii (s : string) : string :=
  String.rev (skip_spaces (String.rev (skip_spaces s))).

(** Every character of the text is an ASCII character. *)
Fixpoint isAscii (s : string) : bool :=
  match s with
  | String c r => (nat_of_ascii c <? 128)%nat && isAscii r
  | EmptyString => true
  end.

(** Two string functions give the same result on ASCII texts. *)
Definition agreesOnAscii (f g : string -> string) : Prop :=
  ∀ s, isAscii s = true → f s = g s.

(** The string is made of white space only. *)
Fixpoint all_space (s : string) : bool :=
  match s with
  | String c r => is_space c && all_space r
  | EmptyString => true
  end.

(** An input that holds the text 0 is given the empty text. *)
Definition zeroToEmpty (v : option string) : option string :=
  match v with
  | Some t => if String.eqb t "0" then Some "" else v
  | None => v
  end.

Definition mapInputs (f : option string -> option string) (i : FilterInputs)
  : FilterInputs :=
  {| filter_price_min := f (filter_price_min i);
     filter_price_max := f (filter_price_max i);
     filter_rsi_min := f (filter_rsi_min i);
     filter_rsi_max := f (filter_rsi_max i);
     filter_change_min := f (filter_change_min i);
     filter_change_max := f (filter_change_max i);
     filter_vol_min := f (filter_vol_min i) |}.

(** A page that has just been opened. *)
Definition freshSite : Page :=
  {| page_state := freshPage; let_allStocks := [];
     search_panel := {| panel_hidden := true; panel_content := Items [] |};
     input_listeners := 0 |}.

(** The page after [processData] has drawn the sample records: the search
    box has its listener. *)
Definition sampleSite : Page :=
  processDataPage {| stocks := Some sampleStocks |} freshSite.

(** * Properties *)

(** ** Lists *)

Lemma filter_sublist {A : Type} (f : A -> bool) (l : list A) :
  sublist (List.filter f l) l.
Proof.
  induction l as [|x l IH]; simpl; [constructor|].
  destruct (f x); [by apply sublist_skip | by apply sublist_cons].
Qed.

Lemma filter_elem_of {A : Type} (f : A -> bool) (l : list A) (x : A) :
  x ∈ List.filter f l ↔ x ∈ l ∧ f x = true.
Proof. rewrite !list_elem_of_In. apply filter_In. Qed.

Lemma filter_none {A : Type} (f : A -> bool) (l : list A) :
  (∀ x, x ∈ l → f x = false) → List.filter f l = [].
Proof.
  induction l as [|x l IH]; intros H; simpl; [done|].
  rewrite (H x) by constructor. apply IH. intros y Hy. apply H. by constructor.
Qed.

Lemma filter_NoDup_fmap {A B : Type} (g : A -> B) (f : A -> bool) (l : list A) :
  NoDup (g <$> l) → NoDup (g <$> List.filter f l).
Proof.
  intros H. eapply sublist_NoDup; [exact H|]. apply fmap_sublist, filter_sublist.
Qed.

(** [l.some (s => s.symbol === k)] says that [k] is a key of [l]. *)
Lemma existsb_symbol (k : string) (l : list Stock) :
  existsb (fun existing => String.eqb (symbol existing) k) l = true
  ↔ k ∈ (symbol <$> l).
Proof.
  rewrite existsb_exists, list_elem_of_fmap. split.
  - intros (x & Hx & He). apply String.eqb_eq in He.
    exists x. split; [done|]. by apply list_elem_of_In.
  - intros (x & -> & Hx). exists x. split; [by apply list_elem_of_In|].
    apply String.eqb_refl.
Qed.

(** ** The merge of stage 2 *)

Lemma newStocksOf_elem_of (cur inc : list Stock) (r : Stock) :
  r ∈ newStocksOf cur inc ↔ r ∈ inc ∧ symbol r ∉ (symbol <$> cur).
Proof.
  unfold newStocksOf. rewrite filter_elem_of, negb_true_iff.
  rewrite <- existsb_symbol. by rewrite not_true_iff_false.
Qed.

Lemma merge_unfold (ws : option (list Stock)) (inc : list Stock) :
  merge ws inc
  = match newStocksOf (workingSet ws) inc with
    | [] => (ws, [])
    | d => (Some (workingSet ws ++ d), d)
    end.
Proof. unfold merge, workingSet. by destruct (newStocksOf _ inc). Qed.

Lemma merge_workingSet (ws : option (list Stock)) (inc : list Stock) :
  workingSet (fst (merge ws inc)) = workingSet ws ++ snd (merge ws inc).
Proof.
  unfold merge. fold (workingSet ws).
  destruct (newStocksOf (workingSet ws) inc) eqn:E; simpl; [|done].
  by rewrite app_nil_r.
Qed.

Lemma merge_delta (ws : option (list Stock)) (inc : list Stock) :
  snd (merge ws inc) = newStocksOf (workingSet ws) inc.
Proof.
  unfold merge. fold (workingSet ws).
  by destruct (newStocksOf (workingSet ws) inc).
Qed.

Lemma renderAll_frame (l : list Stock) (st : State) :
  sessionStorage (renderAll l st) = sessionStorage st
  ∧ allStocks (renderAll l st) = allStocks st
  ∧ currentSymbol (renderAll l st) = currentSymbol st
  ∧ region_toggle (renderAll l st) = region_toggle st
  ∧ stock_grid (renderAll l st) = stock_grid st ++ (Card <$> l).
Proof.
  revert st. induction l as [|x l IH]; intros st; simpl.
  - by rewrite app_nil_r.
  - destruct (IH (renderStockCard x st)) as (-> & -> & -> & -> & ->).
    simpl. by rewrite <- app_assoc.
Qed.

(** A successful stage 2 stores the merged working set. *)
Lemma fetchFullBatchInBackground_allStocks status data inc now st :
  ok status = true → stocks data = Some inc →
  allStocks (fetchFullBatchInBackground (Responded status (Json data)) now st)
  = fst (merge (allStocks st) inc).
Proof.
  intros Hok Hs. unfold fetchFullBatchInBackground. rewrite Hok, Hs. simpl.
  destruct (merge (allStocks st) inc) as [ws d]. simpl.
  by rewrite (proj1 (proj2 (renderAll_frame _ _))).
Qed.

(** Merging a snapshot into the empty working set gives the snapshot: the
    list stage 1 hands to [processData]. *)
Lemma merge_empty (incoming : list Stock) :
  workingSet (fst (merge None incoming)) = incoming
  ∧ workingSet (fst (merge (Some []) incoming)) = incoming.
Proof.
  assert (newStocksOf [] incoming = incoming) as E.
  { unfold newStocksOf. simpl. induction incoming as [|x l IH]; simpl; [done|].
    by rewrite IH. }
  rewrite !merge_workingSet, !merge_delta. simpl. by rewrite E.
Qed.

(** C1, as the spec states it, fails: stage 2 keeps the record that
    the working set already has for a symbol.  After the quick stage
    returned AAA at 10 and the full stage AAA at 11 and BBB at 5, the
    working set holds AAA at 10, not at 11. *)
Lemma merge_replaces_existing_counterexample :
  let st1 := fst (fetchQuickBatch (success [quote "AAA" 10]) 1000 freshPage) in
  let st2 :=
    fetchFullBatchInBackground
      (success [quote "AAA" 11; quote "BBB" 5]) 2000 st1 in
  allStocks st2 = Some [quote "AAA" 10; quote "BBB" 5]
  ∧ allStocks st2 ≠ Some [quote "AAA" 11; quote "BBB" 5].
Proof.
  split; [vm_compute; reflexivity|].
  vm_compute. intros H. discriminate H.
Qed.

(** C1 (amended): for every working set and incoming snapshot, the
    merged working set is the old one, its records untouched and in place,
    followed by the delta; the delta is made of the incoming records whose
    symbol the working set does not have, in arrival order.  An incoming
    record whose symbol is present is dropped and is not in the delta.  In
    the scenario the working set is AAA at 10, BBB at 5 and the delta is
    BBB at 5. *)
Theorem merge_appends_new_keeps_existing
    (ws : option (list Stock)) (incoming : list Stock) :
  let merged := fst (merge ws incoming) in
  let delta := snd (merge ws incoming) in
  workingSet merged = workingSet ws ++ delta
  ∧ (∀ i r, workingSet ws !! i = Some r → workingSet merged !! i = Some r)
  ∧ sublist delta incoming
  ∧ (∀ r, r ∈ delta ↔ r ∈ incoming ∧ symbol r ∉ (symbol <$> workingSet ws))
  ∧ merge (Some [quote "AAA" 10]) [quote "AAA" 11; quote "BBB" 5]
    = (Some [quote "AAA" 10; quote "BBB" 5], [quote "BBB" 5]).
Proof.
  simpl. split; [apply merge_workingSet|].
  split.
  { intros i r Hi. rewrite merge_workingSet. by apply lookup_app_l_Some. }
  split.
  { rewrite merge_delta. apply filter_sublist. }
  split; [|reflexivity].
  intros r. rewrite merge_delta. apply newStocksOf_elem_of.
Qed.

Lemma merge_appends_new_keeps_existing_witness :
  let ws := Some [quote "AAA" 10] in
  let incoming := [quote "AAA" 11; quote "BBB" 5] in
  workingSet (fst (merge ws incoming)) !! 0%nat = Some (quote "AAA" 10)
  ∧ quote "BBB" 5 ∈ snd (merge ws incoming).
Proof.
  destruct (merge_appends_new_keeps_existing
              (Some [quote "AAA" 10]) [quote "AAA" 11; quote "BBB" 5])
    as (_ & Hkeep & _ & Hdelta & _).
  split.
  - apply Hkeep. reflexivity.
  - apply Hdelta. split.
    + right. left.
    + simpl. intros H. apply list_elem_of_singleton in H. discriminate H.
Defined.

(** ** No duplicate keys *)

Lemma merge_NoDup (ws : option (list Stock)) (incoming : list Stock) :
  NoDup (symbol <$> workingSet ws) →
  NoDup (symbol <$> incoming) →
  NoDup (symbol <$> workingSet (fst (merge ws incoming))).
Proof.
  intros Hws Hinc. rewrite merge_workingSet, merge_delta, fmap_app.
  apply NoDup_app. split; [done|]. split.
  - intros k Hk Hk'. apply list_elem_of_fmap in Hk' as (r & -> & Hr).
    by apply newStocksOf_elem_of in Hr as [_ Hr].
  - by apply filter_NoDup_fmap.
Qed.

Lemma mergeAll_NoDup (snapshots : list (list Stock)) :
  ∀ ws, NoDup (symbol <$> workingSet ws) →
        Forall (fun snapshot => NoDup (symbol <$> snapshot)) snapshots →
        NoDup (symbol <$> workingSet (mergeAll ws snapshots)).
Proof.
  induction snapshots as [|s snapshots IH]; intros ws Hws Hall; simpl; [done|].
  inversion Hall as [|? ? Hs Hrest]; subst.
  apply IH; [|done]. by apply merge_NoDup.
Qed.

(** C3: starting from the empty working set (the empty list, or
    [window.allStocks] still undefined), after any finite sequence of merges
    of snapshots whose symbols are pairwise distinct, every symbol occurs at
    most once in the working set. *)
Theorem mergeAll_no_duplicate_keys (snapshots : list (list Stock)) :
  Forall (fun snapshot => NoDup (symbol <$> snapshot)) snapshots →
  NoDup (symbol <$> workingSet (mergeAll (Some []) snapshots))
  ∧ NoDup (symbol <$> workingSet (mergeAll None snapshots)).
Proof.
  intros H. split; apply mergeAll_NoDup; try done; simpl; constructor.
Qed.

Lemma mergeAll_no_duplicate_keys_witness :
  let snapshots :=
    [[quote "AAA" 10]; [quote "AAA" 11; quote "BBB" 5]; [quote "CCC" 7; quote "BBB" 6]] in
  NoDup (symbol <$> workingSet (mergeAll (Some []) snapshots))
  ∧ NoDup (symbol <$> workingSet (mergeAll None snapshots)).
Proof.
  apply mergeAll_no_duplicate_keys.
  apply (bool_decide_unpack _). vm_compute. exact I.
Defined.

(** ** Idempotence *)

Lemma newStocksOf_again (cur incoming : list Stock) :
  newStocksOf (cur ++ newStocksOf cur incoming) incoming = [].
Proof.
  unfold newStocksOf at 1. apply filter_none. intros r Hr.
  apply negb_false_iff, existsb_symbol.
  rewrite fmap_app, elem_of_app.
  destruct (decide (symbol r ∈ (symbol <$> cur))) as [Hin|Hout]; [by left|].
  right. apply list_elem_of_fmap. exists r. split; [done|].
  by apply newStocksOf_elem_of.
Qed.

(** C5: merging the same snapshot again changes nothing.  For every
    working set S and snapshot A, the second merge has an empty delta and
    returns the working set of the first one, so the working set of
    merge (merge (S, A), A) is that of merge (S, A) and its keys are the
    same, none added. *)
Theorem merge_idempotent (S : option (list Stock)) (A : list Stock) :
  let once := fst (merge S A) in
  merge once A = (once, [])
  ∧ fst (merge once A) = fst (merge S A)
  ∧ symbol <$> workingSet (fst (merge once A))
    = symbol <$> workingSet (fst (merge S A)).
Proof.
  simpl.
  assert (merge (fst (merge S A)) A = (fst (merge S A), [])) as E.
  { rewrite (merge_unfold (fst (merge S A)) A).
    rewrite merge_workingSet, merge_delta. by rewrite newStocksOf_again. }
  by rewrite E.
Qed.

(** On the page: when stage 2 succeeds a second time with the same list,
    the working set and the grid stay as the first run left them. *)
Lemma full_stage_again (A : list Stock) (t1 t2 : Z) (st : State) :
  let st1 := fetchFullBatchInBackground (success A) t1 st in
  let st2 := fetchFullBatchInBackground (success A) t2 st1 in
  allStocks st2 = allStocks st1 ∧ stock_grid st2 = stock_grid st1.
Proof.
  intros st1 st2.
  assert (allStocks st1 = fst (merge (allStocks st) A)) as E1.
  { by apply (fetchFullBatchInBackground_allStocks 200 {| stocks := Some A |}). }
  assert (merge (allStocks st1) A = (allStocks st1, [])) as E2.
  { rewrite E1. rewrite (merge_unfold (fst (merge (allStocks st) A)) A).
    rewrite merge_workingSet, merge_delta. by rewrite newStocksOf_again. }
  assert (∀ s, merge (allStocks s) A = (allStocks s, []) →
               allStocks (fetchFullBatchInBackground (success A) t2 s) = allStocks s
               ∧ stock_grid (fetchFullBatchInBackground (success A) t2 s)
                 = stock_grid s) as Hrun.
  { intros s E. unfold fetchFullBatchInBackground, success. simpl.
    change (allStocks (cache_write {| stocks := Some A |} t2 s))
      with (allStocks s).
    rewrite E. split; reflexivity. }
  by apply Hrun.
Qed.

(** ** What the stages write *)

Lemma processData_frame (data : MarketData) (st : State) :
  sessionStorage (processData data st) = sessionStorage st
  ∧ allStocks (processData data st)
    = Some (match stocks data with Some l => l | None => [] end)
  ∧ currentSymbol (processData data st) = currentSymbol st
  ∧ region_toggle (processData data st) = region_toggle st.
Proof.
  unfold processData.
  destruct (List.filter _ _) as [|x l]; [done|].
  by destruct (renderAll_frame (x :: l)
    (with_grid (with_allStocks st
       (Some (match stocks data with Some l => l | None => [] end))) []))
    as (-> & -> & -> & -> & _).
Qed.

Lemma getItem_cache_write (k : string) (data : MarketData) (now : Z) (st : State) :
  getItem k (cache_write data now st)
  = if String.eqb k "wolfee_cache_time" then Some (IText (toString now))
    else if String.eqb k "wolfee_market_data" then Some (IData data)
    else getItem k st.
Proof.
  unfold getItem, cache_write, setItem. simpl.
  destruct (String.eqb_spec k "wolfee_cache_time") as [->|H1].
  { by rewrite lookup_insert_eq. }
  rewrite lookup_insert_ne by done.
  destruct (String.eqb_spec k "wolfee_market_data") as [->|H2].
  { by rewrite lookup_insert_eq. }
  by rewrite lookup_insert_ne.
Qed.

Lemma getItem_cache_write_null (k : string) (now : Z) (st : State) :
  getItem k (cache_write_null now st)
  = if String.eqb k "wolfee_cache_time" then Some (IText (toString now))
    else if String.eqb k "wolfee_market_data" then Some (IText "null")
    else getItem k st.
Proof.
  unfold getItem, cache_write_null, setItem. simpl.
  destruct (String.eqb_spec k "wolfee_cache_time") as [->|H1].
  { by rewrite lookup_insert_eq. }
  rewrite lookup_insert_ne by done.
  destruct (String.eqb_spec k "wolfee_market_data") as [->|H2].
  { by rewrite lookup_insert_eq. }
  by rewrite lookup_insert_ne.
Qed.

Lemma cache_write_data (data : MarketData) (now : Z) (st : State) :
  getItem "wolfee_market_data" (cache_write data now st) = Some (IData data).
Proof. by rewrite getItem_cache_write. Qed.

Lemma cache_write_time (data : MarketData) (now : Z) (st : State) :
  getItem "wolfee_cache_time" (cache_write data now st)
  = Some (IText (toString now)).
Proof. by rewrite getItem_cache_write. Qed.

Lemma getItem_processData (k : string) (data : MarketData) (st : State) :
  getItem k (processData data st) = getItem k st.
Proof. unfold getItem. by rewrite (proj1 (processData_frame data st)). Qed.

(** No duplicate keys on the page: stage 1 hands its list to
    [processData], then stage 2 succeeds any number of times. *)
Lemma pipeline_no_duplicate_keys
    (quick : list Stock) (fulls : list (list Stock * Z)) (st : State) :
  NoDup (symbol <$> quick) →
  Forall (fun f => NoDup (symbol <$> fst f)) fulls →
  NoDup (symbol <$> workingSet (allStocks
    (fold_left (fun acc f => fetchFullBatchInBackground (success (fst f)) (snd f) acc)
       fulls (processData {| stocks := Some quick |} st)))).
Proof.
  intros Hq Hf.
  assert (NoDup (symbol <$> workingSet
            (allStocks (processData {| stocks := Some quick |} st)))) as H0.
  { by rewrite (proj1 (proj2 (processData_frame _ st))). }
  revert H0. generalize (processData {| stocks := Some quick |} st).
  induction Hf as [|[full now] fulls Hfull _ IH]; intros acc Hacc;
    cbn [fold_left]; [done|].
  apply IH. cbn [fst snd] in *. unfold success.
  rewrite (fetchFullBatchInBackground_allStocks 200 {| stocks := Some full |}
             full now acc eq_refl eq_refl).
  by apply merge_NoDup.
Qed.

(** ** A failing stage 2 *)

Lemma fetchFullBatchInBackground_failed r now st :
  failed r = true → fetchFullBatchInBackground r now st = st.
Proof.
  destruct r as [|status [|d|]]; simpl; intros H; try done.
  - by destruct (ok status).
  - by rewrite H.
  - by rewrite H.
Qed.

Lemma fetchFullBatch_failed r now st :
  failed r = true → fetchFullBatch r now st = st.
Proof.
  destruct r as [|status [|d|]]; simpl; intros H; try done.
  - by destruct (ok status).
  - by rewrite H.
  - by rewrite H.
Qed.

(** The failures that stop stage 2 before its first write (request
    rejected, non-success status, or a body that is not JSON): in either
    revision of main.js the state is the one a successful stage 1 left: the
    working set is the quick list, and the stored snapshot and its time
    stamp are those stage 1 wrote at [t0]. *)
Theorem full_stage_failure_keeps_quick_data
    (status : nat) (quickList : list Stock) (t0 t1 : Z) (st0 : State)
    (r : fetched) :
  ok status = true →
  failed r = true →
  let data := {| stocks := Some quickList |} in
  let st := fst (fetchQuickBatch (Responded status (Json data)) t0 st0) in
  fetchFullBatchInBackground r t1 st = st
  ∧ fetchFullBatch r t1 st = st
  ∧ allStocks st = Some quickList
  ∧ getItem "wolfee_market_data" st = Some (IData data)
  ∧ getItem "wolfee_cache_time" st = Some (IText (toString t0)).
Proof.
  intros Hok Hf data st.
  split; [by apply fetchFullBatchInBackground_failed|].
  split; [by apply fetchFullBatch_failed|].
  subst st. simpl. rewrite Hok. simpl.
  rewrite (proj1 (proj2 (processData_frame data _))), !getItem_processData.
  by rewrite cache_write_data, cache_write_time.
Qed.

Lemma full_stage_failure_keeps_quick_data_witness :
  let data := {| stocks := Some [quote "AAA" 10] |} in
  let st := fst (fetchQuickBatch (Responded 200 (Json data)) 1000 freshPage) in
  fetchFullBatchInBackground (Responded 503 NotJson) 2000 st = st
  ∧ fetchFullBatch (Responded 503 NotJson) 2000 st = st
  ∧ allStocks st = Some [quote "AAA" 10]
  ∧ getItem "wolfee_market_data" st = Some (IData data)
  ∧ getItem "wolfee_cache_time" st = Some (IText (toString 1000)).
Proof.
  apply (full_stage_failure_keeps_quick_data
           200 [quote "AAA" 10] 1000 2000 freshPage (Responded 503 NotJson)).
  - reflexivity.
  - reflexivity.
Defined.

(** A success response whose body is an object with no [stocks] property
    fails later: [fetchFullBatchInBackground] has stored it before reading
    [data.stocks]; the working set and the grid stay as they are.
    [fetchFullBatch] stores nothing in that case. *)
Lemma full_stage_body_without_stocks (status : nat) (now : Z) (st : State) :
  ok status = true →
  let r := Responded status (Json {| stocks := None |}) in
  fetchFullBatchInBackground r now st = cache_write {| stocks := None |} now st
  ∧ allStocks (fetchFullBatchInBackground r now st) = allStocks st
  ∧ fetchFullBatch r now st = st.
Proof. intros H. simpl. by rewrite H. Qed.

Lemma full_stage_body_null (status : nat) (now : Z) (st : State) :
  ok status = true →
  let r := Responded status JsonNull in
  fetchFullBatchInBackground r now st = cache_write_null now st
  ∧ fetchFullBatch r now st = st.
Proof. intros H. simpl. by rewrite H. Qed.

(** C2: a full stage that fails on the body of a success response.  The
    response has status 2xx and a JSON body that is an object with no
    [stocks] property (the empty object, say), or is null.  [fetchFullBatchInBackground]
    throws when it reads [data.stocks], and the error is caught and logged,
    but by then it has overwritten both cache entries: the snapshot that
    stage 1 stored at [t0] is replaced by the body without records, and the
    time stamp by the time [t1] of stage 2.  The working set and the grid
    are as stage 1 left them.  The other revision, [fetchFullBatch], looks at
    the body before it writes, and leaves the whole state as it was. *)
Theorem full_stage_overwrites_cache_before_failing
    (status statusFull : nat) (quickList : list Stock) (t0 t1 : Z)
    (st0 : State) :
  ok status = true →
  ok statusFull = true →
  let data := {| stocks := Some quickList |} in
  let st := fst (fetchQuickBatch (Responded status (Json data)) t0 st0) in
  let noStocks := Responded statusFull (Json {| stocks := None |}) in
  let null := Responded statusFull JsonNull in
  (getItem "wolfee_market_data" st = Some (IData data)
   ∧ getItem "wolfee_cache_time" st = Some (IText (toString t0)))
  ∧ (getItem "wolfee_market_data" (fetchFullBatchInBackground noStocks t1 st)
     = Some (IData {| stocks := None |})
     ∧ getItem "wolfee_cache_time" (fetchFullBatchInBackground noStocks t1 st)
       = Some (IText (toString t1))
     ∧ allStocks (fetchFullBatchInBackground noStocks t1 st) = Some quickList
     ∧ stock_grid (fetchFullBatchInBackground noStocks t1 st) = stock_grid st
     ∧ fetchFullBatch noStocks t1 st = st)
  ∧ (getItem "wolfee_market_data" (fetchFullBatchInBackground null t1 st)
     = Some (IText "null")
     ∧ getItem "wolfee_cache_time" (fetchFullBatchInBackground null t1 st)
       = Some (IText (toString t1))
     ∧ allStocks (fetchFullBatchInBackground null t1 st) = Some quickList
     ∧ stock_grid (fetchFullBatchInBackground null t1 st) = stock_grid st
     ∧ fetchFullBatch null t1 st = st).
Proof.
  intros Hok HokF data st noStocks null.
  assert (allStocks st = Some quickList) as Hall.
  { subst st. simpl. rewrite Hok. simpl.
    by rewrite (proj1 (proj2 (processData_frame data _))). }
  split.
  { subst st. simpl. rewrite Hok. simpl. rewrite !getItem_processData.
    by rewrite cache_write_data, cache_write_time. }
  destruct (full_stage_body_without_stocks statusFull t1 st HokF) as (E1 & _ & E2).
  destruct (full_stage_body_null statusFull t1 st HokF) as (N1 & N2).
  subst noStocks null. rewrite E1, E2, N1, N2.
  rewrite !getItem_cache_write, !getItem_cache_write_null. simpl.
  by rewrite Hall.
Qed.

Lemma full_stage_overwrites_cache_before_failing_witness :
  let st := fst (fetchQuickBatch (success [quote "AAA" 10]) 1000 freshPage) in
  let after :=
    fetchFullBatchInBackground
      (Responded 200 (Json {| stocks := None |})) 2000 st in
  getItem "wolfee_market_data" st
  = Some (IData {| stocks := Some [quote "AAA" 10] |})
  ∧ getItem "wolfee_cache_time" st = Some (IText "1000")
  ∧ getItem "wolfee_market_data" after = Some (IData {| stocks := None |})
  ∧ getItem "wolfee_cache_time" after = Some (IText "2000")
  ∧ fetchFullBatch (Responded 200 (Json {| stocks := None |})) 2000 st = st.
Proof.
  destruct (full_stage_overwrites_cache_before_failing
              200 200 [quote "AAA" 10] 1000 2000 freshPage eq_refl eq_refl)
    as ((H1 & H2) & (H3 & H4 & _ & _ & H5) & _).
  repeat split; assumption.
Defined.

(** ** The time stamp *)

Lemma span_digits_uint (u : Decimal.uint) :
  span_digits (NilEmpty.string_of_uint u) = (NilEmpty.string_of_uint u, "").
Proof. induction u; simpl; try rewrite IHu; reflexivity. Qed.

Lemma digits_value_uint (n : N) :
  digits_value (NilEmpty.string_of_uint (N.to_uint n)) = n.
Proof.
  unfold digits_value. rewrite NilEmpty.usu. apply DecimalN.Unsigned.of_to.
Qed.

Lemma read_decimal_uint (n : N) :
  read_decimal (NilEmpty.string_of_uint (N.to_uint n)) = Some n.
Proof.
  unfold read_decimal. rewrite span_digits_uint.
  assert (N.to_uint n ≠ Decimal.Nil) as Hnil.
  { destruct n as [|p]; [done|]. apply DecimalPos.Unsigned.to_uint_nonnil. }
  pose proof (digits_value_uint n) as Hv.
  destruct (N.to_uint n); [done|..]; simpl in *; by rewrite Hv.
Qed.

(** A decimal text does not start with a sign, a space or the prefix
    [0x]. *)
Lemma parseInt_decimal (u : Decimal.uint) (neg : bool) :
  let s := NilEmpty.string_of_uint u in
  parseInt (if neg then String "-" s else s)
  = match read_decimal s with
    | None => NaN
    | Some n => of_Z (if neg then - Z.of_N n else Z.of_N n)
    end.
Proof.
  simpl. unfold parseInt.
  destruct u as [|u|u|u|u|u|u|u|u|u|u]; destruct neg; try reflexivity;
    destruct u; reflexivity.
Qed.

(** The decimal text of a natural number is read back by [parseInt]. *)
Lemma parseInt_digits (n : N) (neg : bool) :
  let s := NilEmpty.string_of_uint (N.to_uint n) in
  parseInt (if neg then String "-" s else s)
  = of_Z (if neg then - Z.of_N n else Z.of_N n).
Proof. simpl. by rewrite parseInt_decimal, read_decimal_uint. Qed.

Lemma parseInt_toString (z : Z) : parseInt (toString z) = of_Z z.
Proof.
  unfold toString. destruct (Z.ltb_spec z 0) as [Hneg|Hpos].
  - rewrite (parseInt_digits (Z.abs_N z) true). f_equal. lia.
  - rewrite (parseInt_digits (Z.to_N z) false). f_equal. lia.
Qed.

Lemma toString_truthy (z : Z) : item_truthy (IText (toString z)) = true.
Proof.
  unfold toString, item_truthy. destruct (z <? 0)%Z; [done|].
  assert (N.to_uint (Z.to_N z) ≠ Decimal.Nil) as Hnil.
  { destruct (Z.to_N z) as [|p]; [done|]. apply DecimalPos.Unsigned.to_uint_nonnil. }
  by destruct (N.to_uint (Z.to_N z)).
Qed.

Lemma age_lt_ttl (t0 t1 : Z) :
  num_lt (num_sub (of_Z t1) (of_Z t0)) (of_Z 300000) = (t1 - t0 <? 300000)%Z.
Proof.
  unfold of_Z, num_sub, num_lt, Qle_bool, Qminus, Qplus, Qopp, inject_Z. simpl.
  change (Z.pos (1 * 1)) with 1%Z.
  destruct (Z.leb_spec (300000 * 1) ((t1 * 1 + - t0 * 1) * 1));
    destruct (Z.ltb_spec (t1 - t0) 300000); simpl; try done; lia.
Qed.

(** ** The cache check of [init] *)

Lemma cacheValid_written (data : MarketData) (t0 t1 : Z) (st : State) :
  cacheValid t1 (cache_write data t0 st) = (t1 - t0 <? 300000)%Z.
Proof.
  unfold cacheValid. rewrite cache_write_data, cache_write_time.
  rewrite toString_truthy. unfold item_parseInt.
  rewrite parseInt_toString. apply age_lt_ttl.
Qed.

(** C4: an entry written at [t0] (by either stage) is valid at
    [t1] exactly when [t1 - t0 < 300000] ms.  When it is valid, [init]
    makes no call to stage 1 or stage 2: it hands the cached snapshot to
    [processData], so the working set is the cached list, and starts the
    two loaders.  At [t1 - t0 = 300000] or later the check fails and [init]
    runs the pipeline: stage 1, then (stage 1 having succeeded) stage 2. *)
Theorem cache_ttl_boundary
    (data : MarketData) (t0 t1 : Z) (st : State) (quick : fetched) (nowQuick : Z) :
  let written := cache_write data t0 st in
  let result := init t1 quick nowQuick written in
  (cacheValid t1 written = true ↔ (t1 - t0 < 300000)%Z)
  ∧ ((t1 - t0 < 300000)%Z →
     result = (processData data written, [CallLoadAIInsight; CallLoadOpportunities])
     ∧ allStocks (fst result)
       = Some (match stocks data with Some l => l | None => [] end))
  ∧ ((300000 <= t1 - t0)%Z →
     cacheValid t1 written = false
     ∧ snd result
       = CallFetchQuickBatch ::
           (if snd (fetchQuickBatch quick nowQuick written) then []
            else [CallFetchFullBatchInBackground; CallLoadAIInsight;
                  CallLoadOpportunities])).
Proof.
  intros written result. subst result. unfold init.
  subst written. rewrite cacheValid_written.
  split; [|split].
  - rewrite Z.ltb_lt. tauto.
  - intros Hlt. apply Z.ltb_lt in Hlt. rewrite Hlt.
    rewrite cache_write_data. simpl. split; [done|].
    apply processData_frame.
  - intros Hge. apply Z.ltb_ge in Hge. rewrite Hge. split; [done|].
    by destruct (fetchQuickBatch _ _ _) as [st' []].
Qed.

Lemma cache_ttl_boundary_witness :
  let data := {| stocks := Some [quote "AAA" 10] |} in
  let written := cache_write data 1000 freshPage in
  (init 300999 Rejected 0 written
   = (processData data written, [CallLoadAIInsight; CallLoadOpportunities])
   ∧ allStocks (fst (init 300999 Rejected 0 written)) = Some [quote "AAA" 10])
  ∧ (cacheValid 301000 written = false
     ∧ snd (init 301000 (success [quote "BBB" 5]) 301001 written)
       = [CallFetchQuickBatch; CallFetchFullBatchInBackground;
          CallLoadAIInsight; CallLoadOpportunities]).
Proof.
  split.
  - apply (proj1 (proj2 (cache_ttl_boundary
             {| stocks := Some [quote "AAA" 10] |} 1000 300999 freshPage Rejected 0))).
    lia.
  - apply (proj2 (proj2 (cache_ttl_boundary
             {| stocks := Some [quote "AAA" 10] |} 1000 301000 freshPage
             (success [quote "BBB" 5]) 301001))).
    lia.
Defined.

(** ** Refresh *)

Lemma getItem_refreshMarket_clear (k : string) (st : State) :
  getItem k (refreshMarket_clear st)
  = if String.eqb k "wolfee_market_data" || String.eqb k "wolfee_ai_insight"
       || String.eqb k "wolfee_opportunities"
    then None else getItem k st.
Proof.
  unfold getItem, refreshMarket_clear, removeItem. simpl.
  destruct (String.eqb_spec k "wolfee_market_data") as [->|H1];
    [by simplify_map_eq|].
  destruct (String.eqb_spec k "wolfee_ai_insight") as [->|H2];
    [by simplify_map_eq|].
  destruct (String.eqb_spec k "wolfee_opportunities") as [->|H3];
    [by simplify_map_eq|].
  simpl. by rewrite !lookup_delete_ne.
Qed.

Lemma getItem_fetchQuickBatch (k : string) r now st :
  k ≠ "wolfee_market_data" → k ≠ "wolfee_cache_time" →
  getItem k (fst (fetchQuickBatch r now st)) = getItem k st.
Proof.
  intros H1 H2.
  assert (∀ data, getItem k (processData data (cache_write data now st))
                  = getItem k st) as Hw.
  { intros data. rewrite getItem_processData, getItem_cache_write.
    apply String.eqb_neq in H1, H2. by rewrite H1, H2. }
  destruct r as [|status [|data|]]; simpl; try done.
  - by destruct (ok status).
  - destruct (ok status); simpl; [|done]. by destruct (stocks data); simpl.
  - destruct (ok status); simpl; [|done].
    apply String.eqb_neq in H1, H2. by rewrite getItem_cache_write_null, H2, H1.
Qed.

Lemma getItem_init (k : string) now quick nowQuick st :
  k ≠ "wolfee_market_data" → k ≠ "wolfee_cache_time" →
  getItem k (fst (init now quick nowQuick st)) = getItem k st.
Proof.
  intros H1 H2. unfold init. destruct (cacheValid now st).
  - destruct (getItem "wolfee_market_data" st ≫= item_data); simpl; [|done].
    apply getItem_processData.
  - pose proof (getItem_fetchQuickBatch k quick nowQuick st H1 H2) as H.
    by destruct (fetchQuickBatch quick nowQuick st) as [st' []].
Qed.

(** C8: what [refreshMarket] does to the stored keys.  It removes
    the snapshot, the insight and the opportunities; it does not remove the
    time stamp, which stays as it was (on [loadedPage], still "1000" after
    the removals, and after the whole refresh when stage 1 is rejected).
    The portfolio is the same after the whole refresh. *)
Theorem refreshMarket_leaves_cache_time
    (st : State) (now : Z) (quick : fetched) (nowQuick : Z) :
  let cleared := refreshMarket_clear st in
  getItem "wolfee_market_data" cleared = None
  ∧ getItem "wolfee_ai_insight" cleared = None
  ∧ getItem "wolfee_opportunities" cleared = None
  ∧ getItem "wolfee_cache_time" cleared = getItem "wolfee_cache_time" st
  ∧ getItem "wolfee_portfolio" (fst (refreshMarket now quick nowQuick st))
    = getItem "wolfee_portfolio" st
  ∧ getItem "wolfee_cache_time" (refreshMarket_clear loadedPage)
    = Some (IText "1000")
  ∧ getItem "wolfee_cache_time" (fst (refreshMarket now Rejected nowQuick loadedPage))
    = Some (IText "1000").
Proof.
  intros cleared. subst cleared.
  assert (∀ s q, getItem "wolfee_cache_time" (fst (refreshMarket now q nowQuick s))
                 = if snd (fetchQuickBatch q nowQuick (refreshMarket_clear s))
                   then getItem "wolfee_cache_time"
                          (fst (fetchQuickBatch q nowQuick (refreshMarket_clear s)))
                   else getItem "wolfee_cache_time"
                          (fst (fetchQuickBatch q nowQuick (refreshMarket_clear s))))
    as Hinit.
  { intros s q. unfold refreshMarket, init.
    assert (cacheValid now (refreshMarket_clear s) = false) as ->.
    { unfold cacheValid. by rewrite getItem_refreshMarket_clear. }
    by destruct (fetchQuickBatch q nowQuick (refreshMarket_clear s)) as [st' []]. }
  rewrite !getItem_refreshMarket_clear.
  split; [done|]. split; [done|]. split; [done|]. split; [done|].
  split; [|split].
  - unfold refreshMarket. rewrite getItem_init by done.
    by rewrite getItem_refreshMarket_clear.
  - reflexivity.
  - rewrite Hinit. simpl. by rewrite getItem_refreshMarket_clear.
Qed.

(** ** The portfolio *)

Lemma findIndex_none {A : Type} (f : A -> bool) (l : list A) :
  existsb f l = false → findIndex f l = -1.
Proof.
  induction l as [|x l IH]; simpl; [done|].
  destruct (f x); simpl; [done|]. intros H. by rewrite (IH H).
Qed.

(** When some element satisfies [f], [findIndex] is the length of the
    longest prefix that does not. *)
Lemma findIndex_some {A : Type} (f : A -> bool) (l : list A) :
  existsb f l = true →
  ∃ l1 x l2, l = l1 ++ x :: l2 ∧ f x = true ∧ existsb f l1 = false
             ∧ findIndex f l = Z.of_nat (length l1).
Proof.
  induction l as [|y l IH]; simpl; [done|].
  destruct (f y) eqn:Ey; simpl.
  - intros _. by exists [], y, l.
  - intros H. destruct (IH H) as (l1 & x & l2 & -> & Hx & Hl1 & Hi).
    exists (y :: l1), x, l2. simpl. rewrite Ey, Hi. simpl.
    repeat split; try done.
    destruct (Z.ltb_spec (Z.of_nat (length l1)) 0); lia.
Qed.

Lemma delete_middle {A : Type} (l1 l2 : list A) (x : A) :
  delete (length l1) (l1 ++ x :: l2) = l1 ++ l2.
Proof. induction l1 as [|y l1 IH]; simpl; [done|]. by rewrite IH. Qed.

Lemma inPortfolio_elem_of (k : string) (l : list Stock) :
  inPortfolio k l = true ↔ k ∈ (symbol <$> l).
Proof. apply existsb_symbol. Qed.

Lemma inPortfolio_Permutation (k : string) (l1 l2 : list Stock) :
  symbol <$> l1 ≡ₚ symbol <$> l2 → inPortfolio k l1 = inPortfolio k l2.
Proof.
  intros H. apply eq_true_iff_eq. rewrite !inPortfolio_elem_of.
  by rewrite H.
Qed.

Lemma find_hasSymbol (k : string) (all : list Stock) (stock : Stock) :
  find (hasSymbol k) all = Some stock → symbol stock = k.
Proof. intros H. apply find_some in H as [_ H]. by apply String.eqb_eq. Qed.

Lemma togglePortfolioItem_resolve (st : State) :
  togglePortfolioItem st
  = match resolve st, getPortfolio st with
    | Some stock, Some p => savePortfolio (toggled (symbol stock) stock p) st
    | _, _ => st
    end.
Proof.
  unfold togglePortfolioItem, resolve.
  destruct (currentSymbol st) as [cur|]; [|done].
  destruct (String.eqb cur ""); [by destruct (allStocks st)|].
  destruct (allStocks st) as [all|]; [|done].
  destruct (find (hasSymbol cur) all) as [stock|] eqn:Ef; [|done].
  rewrite (find_hasSymbol _ _ _ Ef). by destruct (getPortfolio st).
Qed.

Lemma savePortfolio_frame (l : list Stock) (st : State) :
  getPortfolio (savePortfolio l st) = Some l
  ∧ resolve (savePortfolio l st) = resolve st.
Proof.
  unfold getPortfolio, savePortfolio, getItem, setItem. simpl.
  by rewrite lookup_insert_eq.
Qed.

Lemma toggled_absent (k : string) (stock : Stock) (p : list Stock) :
  inPortfolio k p = false → toggled k stock p = p ++ [stock].
Proof. intros H. unfold toggled. by rewrite (findIndex_none _ _ H). Qed.

Lemma toggled_present (k : string) (stock : Stock) (p : list Stock) :
  inPortfolio k p = true →
  ∃ l1 x l2, p = l1 ++ x :: l2 ∧ symbol x = k ∧ inPortfolio k l1 = false
             ∧ toggled k stock p = l1 ++ l2.
Proof.
  intros H. destruct (findIndex_some _ _ H) as (l1 & x & l2 & -> & Hx & Hl1 & Hi).
  exists l1, x, l2. repeat split; try done; [by apply String.eqb_eq|].
  unfold toggled. rewrite Hi.
  destruct (Z.leb_spec 0 (Z.of_nat (length l1))); [|lia].
  rewrite Nat2Z.id. apply delete_middle.
Qed.

(** Two toggles of the same key: the list of keys is the same up to order. *)
Lemma toggled_twice (k : string) (stock : Stock) (p : list Stock) :
  symbol stock = k → NoDup (symbol <$> p) →
  symbol <$> toggled k stock (toggled k stock p) ≡ₚ symbol <$> p
  ∧ (inPortfolio k p = false → toggled k stock (toggled k stock p) = p)
  ∧ (inPortfolio k p = true → inPortfolio k (toggled k stock p) = false).
Proof.
  intros Hk Hnd. destruct (inPortfolio k p) eqn:E.
  - destruct (toggled_present k stock p E) as (l1 & x & l2 & -> & Hx & Hl1 & Ht).
    assert (inPortfolio k (l1 ++ l2) = false) as Hout.
    { apply not_true_iff_false. rewrite inPortfolio_elem_of.
      rewrite fmap_app, fmap_cons, Hx in Hnd.
      apply NoDup_app in Hnd as (_ & Hd & Hnd2).
      apply NoDup_cons in Hnd2 as [Hk2 _].
      rewrite fmap_app, elem_of_app. intros [H1|H2]; [|done].
      apply (Hd k H1). by left. }
    rewrite Ht. rewrite (toggled_absent _ _ _ Hout).
    split; [|by split].
    rewrite !fmap_app, !fmap_cons, Hx, Hk. simpl.
    rewrite <- app_assoc. apply Permutation_app_head.
    symmetry. apply Permutation_cons_append.
  - rewrite (toggled_absent _ _ _ E).
    assert (toggled k stock (p ++ [stock]) = p) as ->; [|done].
    assert (inPortfolio k (p ++ [stock]) = true) as Hin.
    { apply inPortfolio_elem_of. rewrite fmap_app, elem_of_app. right.
      simpl. rewrite Hk. by left. }
    destruct (toggled_present k stock _ Hin) as (l1 & x & l2 & Heq & Hx & Hl1 & ->).
    destruct l2 as [|y l2] using rev_ind.
    + apply app_inj_tail in Heq as [-> _]. by rewrite app_nil_r.
    + clear IHl2. rewrite app_comm_cons, app_assoc in Heq.
      apply app_inj_tail in Heq as [-> _].
      exfalso. apply not_true_iff_false in E. apply E.
      apply inPortfolio_elem_of. rewrite fmap_app, elem_of_app. right.
      simpl. rewrite Hx. by left.
Qed.

(** The portfolio keeps its keys distinct. *)
Lemma toggled_NoDup (k : string) (stock : Stock) (p : list Stock) :
  symbol stock = k → NoDup (symbol <$> p) → NoDup (symbol <$> toggled k stock p).
Proof.
  intros Hk Hnd. destruct (inPortfolio k p) eqn:E.
  - destruct (toggled_present k stock p E) as (l1 & x & l2 & -> & _ & _ & ->).
    eapply sublist_NoDup; [exact Hnd|].
    apply fmap_sublist, sublist_app; [done|]. by apply sublist_cons.
  - rewrite (toggled_absent _ _ _ E), fmap_app. apply NoDup_app.
    split; [done|]. split; [|apply NoDup_singleton].
    intros k' Hk' Hs. apply list_elem_of_singleton in Hs. subst k'.
    apply not_true_iff_false in E. apply E.
    apply inPortfolio_elem_of. by rewrite <- Hk.
Qed.

Lemma resolve_symbol (st : State) (stock : Stock) :
  resolve st = Some stock → currentSymbol st = Some (symbol stock).
Proof.
  unfold resolve. destruct (currentSymbol st) as [cur|]; [|done].
  destruct (allStocks st) as [all|]; [|done].
  destruct (String.eqb cur ""); [done|].
  intros H. by rewrite (find_hasSymbol _ _ _ H).
Qed.

(** The portfolio is keyed by symbol in every such state. *)
Lemma portfolioReachable_NoDup (st : State) :
  portfolioReachable st →
  ∃ p, getPortfolio st = Some p ∧ NoDup (symbol <$> p).
Proof.
  induction 1 as [st H | st _ (p & Hp & Hnd) | st st' _ (p & Hp & Hnd) Heq].
  - exists []. unfold getPortfolio. rewrite H. split; [done|constructor].
  - rewrite togglePortfolioItem_resolve, Hp.
    destruct (resolve st) as [stock|]; [|by exists p].
    exists (toggled (symbol stock) stock p).
    split; [apply savePortfolio_frame | by apply toggled_NoDup].
  - exists p. split; [|done]. unfold getPortfolio in *. by rewrite Heq.
Qed.

(** C9: in every state of the portfolio, for a current key whose
    record the working set resolves: the first toggle appends the record
    when the key is absent and removes the entry when it is present; after
    the second toggle every key is in the portfolio exactly when it was
    before (for an absent key the list itself is back).  When the key is not
    resolved, the toggle leaves the state as it is. *)
Theorem toggle_twice_restores_membership (st : State) :
  (resolve st = None → togglePortfolioItem st = st)
  ∧ (∀ stock,
       portfolioReachable st → resolve st = Some stock →
       let k := symbol stock in
       let st1 := togglePortfolioItem st in
       let st2 := togglePortfolioItem st1 in
       ∃ p p1 p2,
         currentSymbol st = Some k
         ∧ getPortfolio st = Some p
         ∧ getPortfolio st1 = Some p1 ∧ getPortfolio st2 = Some p2
         ∧ (inPortfolio k p = false → p1 = p ++ [stock] ∧ p2 = p)
         ∧ (inPortfolio k p = true → inPortfolio k p1 = false ∧ sublist p1 p)
         ∧ (∀ k', inPortfolio k' p2 = inPortfolio k' p)).
Proof.
  split.
  - intros H. by rewrite togglePortfolioItem_resolve, H.
  - intros stock Hreach Hr k st1 st2. subst st2 st1.
    destruct (portfolioReachable_NoDup st Hreach) as (p & Hp & Hnd).
    rewrite (togglePortfolioItem_resolve st), Hr, Hp. fold k.
    destruct (savePortfolio_frame (toggled k stock p) st) as [Hp1 Hr1].
    rewrite togglePortfolioItem_resolve, Hr1, Hr, Hp1. fold k.
    destruct (savePortfolio_frame (toggled k stock (toggled k stock p))
                (savePortfolio (toggled k stock p) st)) as [Hp2 _].
    exists p, (toggled k stock p), (toggled k stock (toggled k stock p)).
    destruct (toggled_twice k stock p eq_refl Hnd) as (Hperm & Habs & Hpres).
    split; [by apply resolve_symbol|].
    split; [done|]. split; [done|]. split; [done|].
    split; [|split].
    + intros E. split; [by apply toggled_absent | by apply Habs].
    + intros E. split; [by apply Hpres|].
      destruct (toggled_present k stock p E) as (l1 & x & l2 & -> & _ & _ & ->).
      apply sublist_app; [done|]. by apply sublist_cons.
    + intros k'. by apply inPortfolio_Permutation.
Qed.

Lemma toggle_twice_restores_membership_witness :
  togglePortfolioItem loadedPage = loadedPage
  ∧ (let st := togglePortfolioItem viewingAAA in
     let st1 := togglePortfolioItem st in
     let st2 := togglePortfolioItem st1 in
     ∃ p p1 p2,
       currentSymbol st = Some "AAA"
       ∧ getPortfolio st = Some p
       ∧ getPortfolio st1 = Some p1 ∧ getPortfolio st2 = Some p2
       ∧ (inPortfolio "AAA" p = false → p1 = p ++ [quote "AAA" 10] ∧ p2 = p)
       ∧ (inPortfolio "AAA" p = true → inPortfolio "AAA" p1 = false ∧ sublist p1 p)
       ∧ (∀ k', inPortfolio k' p2 = inPortfolio k' p)).
Proof.
  split.
  - apply (proj1 (toggle_twice_restores_membership loadedPage)). reflexivity.
  - apply (proj2 (toggle_twice_restores_membership (togglePortfolioItem viewingAAA))
             (quote "AAA" 10)).
    + apply reach_toggle, reach_start. reflexivity.
    + reflexivity.
Defined.

(** The same run, evaluated: added, removed, added again. *)
Example toggle_run :
  getPortfolio viewingAAA = Some []
  ∧ getPortfolio (togglePortfolioItem viewingAAA) = Some [quote "AAA" 10]
  ∧ getPortfolio (togglePortfolioItem (togglePortfolioItem viewingAAA)) = Some []
  ∧ togglePortfolioItem (with_currentSymbol viewingAAA (Some "ZZZ"))
    = with_currentSymbol viewingAAA (Some "ZZZ").
Proof. vm_compute. repeat split. Qed.

(** ** The filter *)

Lemma passesValues_split (b : Bounds) (stock : Stock) :
  passesValues b stock
  = passesOther b stock && negb (num_lt (toNumber (volume stock)) (volMin b)).
Proof.
  unfold passesValues, passesOther.
  destruct (_ || _); [done|]. destruct (_ || _); [done|].
  destruct (_ || _); [done|]. by destruct (num_lt _ _).
Qed.

Lemma readBounds_price1020 :
  readBounds price1020
  = {| priceMin := Fin 10; priceMax := Fin 20; rsiMin := Fin 0;
       rsiMax := Fin 100; changeMin := NegInf; changeMax := PosInf;
       volMin := Fin 0 |}.
Proof. vm_compute. reflexivity. Qed.

Lemma readBounds_noFilters :
  readBounds noFilters
  = {| priceMin := Fin 0; priceMax := PosInf; rsiMin := Fin 0;
       rsiMax := Fin 100; changeMin := NegInf; changeMax := PosInf;
       volMin := Fin 0 |}.
Proof. vm_compute. reflexivity. Qed.

Lemma default_checks (s : Stock) :
  indicatorsInRange s = true →
  negb (num_lt (toNumber (rsi s)) (Fin 0) || num_gt (toNumber (rsi s)) (Fin 100))
  && (negb (num_lt (Fin (change_pct s)) NegInf || num_gt (Fin (change_pct s)) PosInf)
      && negb (num_lt (toNumber (volume s)) (Fin 0))) = true.
Proof.
  unfold indicatorsInRange, num_gt. intros H.
  apply andb_true_iff in H as [Hr Hv].
  destruct (rsi s) as [| |q], (volume s) as [| |v]; simpl in *;
    try apply andb_true_iff in Hr as [-> ->]; try rewrite Hv; reflexivity.
Qed.

Lemma passesValues_price1020 (s : Stock) :
  indicatorsInRange s = true →
  passesValues (readBounds price1020) s
  = Qle_bool 10 (price s) && Qle_bool (price s) 20.
Proof.
  intros H. rewrite passesValues_split, readBounds_price1020.
  unfold passesOther. simpl priceMin. simpl priceMax. simpl rsiMin.
  simpl rsiMax. simpl changeMin. simpl changeMax. simpl volMin.
  rewrite <- !andb_assoc, (default_checks s H), andb_true_r.
  unfold num_gt. simpl. by rewrite negb_orb, !negb_involutive.
Qed.

Lemma passesValues_noFilters (s : Stock) :
  indicatorsInRange s = true →
  passesValues (readBounds noFilters) s = Qle_bool 0 (price s).
Proof.
  intros H. rewrite passesValues_split, readBounds_noFilters.
  unfold passesOther. simpl priceMin. simpl priceMax. simpl rsiMin.
  simpl rsiMax. simpl changeMin. simpl changeMax. simpl volMin.
  rewrite <- !andb_assoc, (default_checks s H), andb_true_r.
  unfold num_gt. simpl. by rewrite orb_false_r, negb_involutive.
Qed.

Lemma filter_filter_andb {A : Type} (f g : A -> bool) (l : list A) :
  List.filter g (List.filter f l) = List.filter (fun x => f x && g x) l.
Proof.
  induction l as [|x l IH]; simpl; [done|].
  destruct (f x); simpl; [|done]. destruct (g x); by rewrite IH.
Qed.

Lemma filter_ext_Forall {A : Type} (f g : A -> bool) (P : A -> Prop) (l : list A) :
  Forall P l → (∀ x, P x → f x = g x) → List.filter f l = List.filter g l.
Proof.
  intros Hl Hfg. induction Hl as [|x l Hx Hl IH]; simpl; [done|].
  by rewrite (Hfg x Hx), IH.
Qed.

Section FilterProperties.

Variable localeCompare : string -> string -> Z.

Lemma sort_insert_Permutation (x : Stock) (l : list Stock) :
  sort_insert localeCompare x l ≡ₚ x :: l.
Proof.
  induction l as [|y l IH]; simpl; [done|].
  destruct (_ <=? 0)%Z; [done|]. rewrite IH. apply Permutation_swap.
Qed.

Lemma sortBySymbol_Permutation (l : list Stock) :
  sortBySymbol localeCompare l ≡ₚ l.
Proof.
  induction l as [|x l IH]; simpl; [done|].
  by rewrite sort_insert_Permutation, IH.
Qed.

Lemma filterStocks_elem_of (i : FilterInputs) (global : bool)
    (all : list Stock) (s : Stock) :
  s ∈ filterStocks localeCompare i global all
  ↔ s ∈ all ∧ inRegion global s = true ∧ passesValues (readBounds i) s = true.
Proof.
  unfold filterStocks.
  assert (s ∈ List.filter (passesValues (readBounds i))
                (List.filter (inRegion global) all)
          ↔ s ∈ all ∧ inRegion global s = true
            ∧ passesValues (readBounds i) s = true) as H.
  { rewrite !filter_elem_of. tauto. }
  destruct global; [|done]. by rewrite sortBySymbol_Permutation.
Qed.

(** The comparator is consistent: it compares any two symbols one way or
    the other, and transitively. *)
Hypothesis localeCompare_total :
  ∀ a b, (localeCompare a b <= 0)%Z ∨ (localeCompare b a <= 0)%Z.
Hypothesis localeCompare_trans :
  ∀ a b c, (localeCompare a b <= 0)%Z → (localeCompare b c <= 0)%Z →
           (localeCompare a c <= 0)%Z.

Lemma sort_insert_sorted (x : Stock) (l : list Stock) :
  StronglySorted (symbolLe localeCompare) l →
  StronglySorted (symbolLe localeCompare) (sort_insert localeCompare x l).
Proof.
  induction 1 as [|y l Hl IH Hy]; simpl.
  - repeat constructor.
  - destruct (Z.leb_spec (localeCompare (symbol x) (symbol y)) 0) as [Hle|Hgt].
    + constructor; [by constructor|]. constructor; [done|].
      eapply Forall_impl; [exact Hy|]. intros z Hz.
      by apply (localeCompare_trans _ (symbol y)).
    + constructor; [done|].
      rewrite sort_insert_Permutation. constructor; [|done].
      destruct (localeCompare_total (symbol x) (symbol y)); [lia|done].
Qed.

Lemma sortBySymbol_sorted (l : list Stock) :
  StronglySorted (symbolLe localeCompare) (sortBySymbol localeCompare l).
Proof.
  induction l as [|x l IH]; simpl; [constructor|].
  by apply sort_insert_sorted.
Qed.

End FilterProperties.

(** What [applyFilters] shows is the filtered list; the working set is not
    touched. *)
Lemma applyFilters_grid localeCompare (i : FilterInputs) (st : State) (all : list Stock) :
  allStocks st = Some all →
  allStocks (applyFilters localeCompare i st) = Some all
  ∧ stock_grid (applyFilters localeCompare i st)
    = match filterStocks localeCompare i (isGlobalMode st) all with
      | [] => [Notice NoMatch]
      | filtered => Card <$> filtered
      end.
Proof.
  intros H. unfold applyFilters. rewrite H.
  destruct (filterStocks _ _ _ _) as [|x l]; [done|].
  destruct (renderAll_frame (x :: l) (with_grid st [])) as (_ & -> & _ & _ & ->).
  done.
Qed.

Lemma codeUnitCompare_le (a b : string) :
  (codeUnitCompare a b <= 0)%Z ↔ String.le a b.
Proof.
  unfold codeUnitCompare, String.le, String.leb.
  destruct (String.compare a b); simpl; split; (done || lia).
Qed.

Lemma codeUnitCompare_total (a b : string) :
  (codeUnitCompare a b <= 0)%Z ∨ (codeUnitCompare b a <= 0)%Z.
Proof.
  rewrite !codeUnitCompare_le.
  destruct (total String.le a b); [by left | by right].
Qed.

Lemma codeUnitCompare_trans (a b c : string) :
  (codeUnitCompare a b <= 0)%Z → (codeUnitCompare b c <= 0)%Z →
  (codeUnitCompare a c <= 0)%Z.
Proof. rewrite !codeUnitCompare_le. intros H1 H2. by etrans. Qed.

(** C6, as the spec states it, fails on records outside the
    default bounds.  A GLOBAL record at price 15 with RSI 150 is dropped by
    the default RSI bound 100, with the price bounds 10 and 20 and with no
    bounds at all; a GLOBAL record with a negative price is dropped by the
    default price-min 0 when no bound is set. *)
Lemma filter_price_interval_counterexample :
  let s := {| symbol := "XYZ"; name := "Xyz"; price := 15; change_pct := 0;
              rsi := JNum 150; volume := JNum 1000 |} in
  let t := {| symbol := "CL=F"; name := "Crude Oil"; price := -37;
              change_pct := -300; rsi := JNum 10; volume := JNum 1000 |} in
  inRegion true s = true
  ∧ Qle_bool 10 (price s) = true ∧ Qle_bool (price s) 20 = true
  ∧ filterStocks codeUnitCompare price1020 true [s] = []
  ∧ filterStocks codeUnitCompare noFilters true [s] = []
  ∧ inRegion true t = true
  ∧ filterStocks codeUnitCompare noFilters true [t] = [].
Proof. vm_compute. repeat split. Qed.

(** C6 (amended): for every record set whose indicators are in
    range (RSI, when present, within 0..100; volume, when present, not
    negative): the filter with price-min 10 and price-max 20 returns exactly
    the records of the requested region with 10 <= price <= 20; with no
    bounds, and prices not negative, it returns the whole region partition.
    The domestic result is in arrival order; the global result is the same
    records sorted ascending by symbol in the order of [localeCompare]. *)
Theorem filter_price_interval_and_order
    (localeCompare : string -> string -> Z) (all : list Stock) :
  (∀ a b, (localeCompare a b <= 0)%Z ∨ (localeCompare b a <= 0)%Z) →
  (∀ a b c, (localeCompare a b <= 0)%Z → (localeCompare b c <= 0)%Z →
            (localeCompare a c <= 0)%Z) →
  Forall (fun s => indicatorsInRange s = true) all →
  let wanted global :=
    List.filter
      (fun s => inRegion global s
                && (Qle_bool 10 (price s) && Qle_bool (price s) 20)) all in
  filterStocks localeCompare price1020 false all = wanted false
  ∧ filterStocks localeCompare price1020 true all ≡ₚ wanted true
  ∧ StronglySorted (symbolLe localeCompare)
      (filterStocks localeCompare price1020 true all)
  ∧ (Forall (fun s => Qle_bool 0 (price s) = true) all →
     filterStocks localeCompare noFilters false all
     = List.filter (inRegion false) all
     ∧ filterStocks localeCompare noFilters true all
       ≡ₚ List.filter (inRegion true) all
     ∧ StronglySorted (symbolLe localeCompare)
         (filterStocks localeCompare noFilters true all)).
Proof.
  intros Htotal Htrans Hall wanted.
  assert (∀ g, List.filter (passesValues (readBounds price1020))
                 (List.filter (inRegion g) all) = wanted g) as H1.
  { intros g. unfold wanted. rewrite filter_filter_andb.
    apply (filter_ext_Forall _ _ _ _ Hall). intros s Hs.
    by rewrite (passesValues_price1020 s Hs). }
  split; [apply H1|]. split; [|split].
  - unfold filterStocks. by rewrite H1, sortBySymbol_Permutation.
  - by apply sortBySymbol_sorted.
  - intros Hprice.
    assert (∀ g, List.filter (passesValues (readBounds noFilters))
                   (List.filter (inRegion g) all)
                 = List.filter (inRegion g) all) as H2.
    { intros g. rewrite filter_filter_andb.
      assert (Forall (fun s => indicatorsInRange s = true
                               ∧ Qle_bool 0 (price s) = true) all) as Hboth.
      { apply Forall_and. by split. }
      apply (filter_ext_Forall _ _ _ _ Hboth). intros s [Hs Hp].
      by rewrite (passesValues_noFilters s Hs), Hp, andb_true_r. }
    split; [apply H2|]. split.
    + unfold filterStocks. by rewrite H2, sortBySymbol_Permutation.
    + by apply sortBySymbol_sorted.
Qed.

Lemma filter_price_interval_and_order_witness :
  let wanted global :=
    List.filter
      (fun s => inRegion global s
                && (Qle_bool 10 (price s) && Qle_bool (price s) 20))
      sampleStocks in
  (filterStocks codeUnitCompare price1020 false sampleStocks = wanted false
   ∧ filterStocks codeUnitCompare price1020 true sampleStocks ≡ₚ wanted true
   ∧ StronglySorted (symbolLe codeUnitCompare)
       (filterStocks codeUnitCompare price1020 true sampleStocks))
  ∧ (filterStocks codeUnitCompare noFilters false sampleStocks
     = List.filter (inRegion false) sampleStocks
     ∧ filterStocks codeUnitCompare noFilters true sampleStocks
       ≡ₚ List.filter (inRegion true) sampleStocks
     ∧ StronglySorted (symbolLe codeUnitCompare)
         (filterStocks codeUnitCompare noFilters true sampleStocks)).
Proof.
  destruct (filter_price_interval_and_order codeUnitCompare sampleStocks
              codeUnitCompare_total codeUnitCompare_trans)
    as (H1 & H2 & H3 & H4).
  - repeat constructor.
  - split; [by repeat split|]. apply H4. repeat constructor.
Defined.

(** The sample, filtered: the global records come out sorted, the domestic
    ones in arrival order. *)
Example filterStocks_sample :
  symbol <$> filterStocks codeUnitCompare price1020 true sampleStocks
  = ["AAPL"; "MSFT"]
  ∧ symbol <$> filterStocks codeUnitCompare price1020 false sampleStocks
    = ["THYAO.IS"]
  ∧ symbol <$> filterStocks codeUnitCompare noFilters false sampleStocks
    = ["THYAO.IS"; "AKBNK.IS"].
Proof. vm_compute. repeat split. Qed.

(** ** Absent volume *)

Lemma volMin_positive (i : FilterInputs) (v : Q) :
  parseFloat (filter_vol_min i) = Fin v → (0 < v)%Q →
  num_lt (Fin 0) (volMin (readBounds i)) = true.
Proof.
  intros Hp Hv. simpl. rewrite Hp. unfold num_or. simpl.
  assert (Qeq_bool v 0 = false) as ->.
  { apply not_true_iff_false. rewrite Qeq_bool_iff. intros E.
    rewrite E in Hv. by apply Qlt_irrefl in Hv. }
  simpl. apply negb_true_iff, not_true_iff_false. rewrite Qle_bool_iff.
  by apply Qlt_not_le.
Qed.

Lemma volMin_unset (i : FilterInputs) :
  num_truthy (parseFloat (filter_vol_min i)) = false →
  volMin (readBounds i) = Fin 0.
Proof. intros H. simpl. unfold num_or. by rewrite H. Qed.

(** C7, as the spec states it, fails on a record whose [volume]
    property is missing: with volume-min set to 1000 the filter keeps it
    ([undefined < 1000] is false). *)
Lemma volume_absent_counterexample :
  let s := {| symbol := "THYAO.IS"; name := "THY"; price := 285;
              change_pct := 1; rsi := JNum 50; volume := JUndefined |} in
  filterStocks codeUnitCompare (set_vol_min (Some "1000") noFilters) false [s]
  = [s].
Proof. vm_compute. reflexivity. Qed.

(** C7 (amended): a record whose volume is [null] is excluded by
    the filter when volume-min is set to a positive number.  A record whose
    [volume] property is missing passes the volume check whatever volume-min
    is, and so does a record with a [null] volume when volume-min is unset
    (empty, unparsable or zero): such a record is in the result exactly
    when it is in the working set, in the region, and within the price, RSI
    and change bounds. *)
Theorem volume_absent_filter
    (localeCompare : string -> string -> Z)
    (i : FilterInputs) (global : bool) (all : list Stock) (s : Stock) :
  (volume s = JNull →
   ∀ v, parseFloat (filter_vol_min i) = Fin v → (0 < v)%Q →
        s ∉ filterStocks localeCompare i global all)
  ∧ (volume s = JUndefined
     ∨ (volume s = JNull ∧ num_truthy (parseFloat (filter_vol_min i)) = false) →
     (s ∈ filterStocks localeCompare i global all
      ↔ s ∈ all ∧ inRegion global s = true
        ∧ passesOther (readBounds i) s = true)).
Proof.
  split.
  - intros Hvol v Hp Hv Hin.
    apply filterStocks_elem_of in Hin as (_ & _ & Hpass).
    rewrite passesValues_split, Hvol in Hpass.
    change (toNumber JNull) with (Fin 0) in Hpass.
    rewrite (volMin_positive i v Hp Hv) in Hpass.
    by rewrite andb_false_r in Hpass.
  - intros Habs. rewrite filterStocks_elem_of, passesValues_split.
    assert (num_lt (toNumber (volume s)) (volMin (readBounds i)) = false) as ->.
    { destruct Habs as [-> | [-> Hunset]]; [done|].
      by rewrite (volMin_unset i Hunset). }
    by rewrite andb_true_r.
Qed.

Lemma volume_absent_filter_witness :
  (nullVolume ∉ filterStocks codeUnitCompare
                  (set_vol_min (Some "1000") noFilters) true sampleStocks)
  ∧ (noVolume ∈ filterStocks codeUnitCompare
                  (set_vol_min (Some "1000") noFilters) false sampleStocks
     ↔ noVolume ∈ sampleStocks ∧ inRegion false noVolume = true
       ∧ passesOther (readBounds (set_vol_min (Some "1000") noFilters)) noVolume
         = true)
  ∧ (nullVolume ∈ filterStocks codeUnitCompare noFilters true sampleStocks
     ↔ nullVolume ∈ sampleStocks ∧ inRegion true nullVolume = true
       ∧ passesOther (readBounds noFilters) nullVolume = true).
Proof.
  split; [|split].
  - apply (proj1 (volume_absent_filter codeUnitCompare
                    (set_vol_min (Some "1000") noFilters) true sampleStocks
                    nullVolume)
             eq_refl 1000%Q).
    + vm_compute. reflexivity.
    + reflexivity.
  - apply (proj2 (volume_absent_filter codeUnitCompare
                    (set_vol_min (Some "1000") noFilters) false sampleStocks
                    noVolume)).
    left. reflexivity.
  - apply (proj2 (volume_absent_filter codeUnitCompare
                    noFilters true sampleStocks nullVolume)).
    right. split; reflexivity.
Defined.

(** ** A price-max of zero *)

(** C10: with the price-max input "0" the filter behaves as with
    the input empty or missing.  [parseFloat] gives 0, which is falsy, so
    [priceMax] is Infinity: no record fails the upper price check, and the
    filtered list and the grid are those of an unset price-max. *)
Theorem price_max_zero_is_unset
    (localeCompare : string -> string -> Z)
    (i : FilterInputs) (global : bool) (all : list Stock) (st : State) :
  let zero := set_price_max (Some "0") i in
  parseFloat (Some "0") = Fin 0
  ∧ priceMax (readBounds zero) = PosInf
  ∧ (∀ s, num_gt (Fin (price s)) (priceMax (readBounds zero)) = false)
  ∧ filterStocks localeCompare zero global all
    = filterStocks localeCompare (set_price_max (Some "") i) global all
  ∧ filterStocks localeCompare zero global all
    = filterStocks localeCompare (set_price_max None i) global all
  ∧ applyFilters localeCompare zero st
    = applyFilters localeCompare (set_price_max (Some "") i) st
  ∧ applyFilters localeCompare zero st
    = applyFilters localeCompare (set_price_max None i) st.
Proof.
  intros zero.
  assert (readBounds zero = readBounds (set_price_max (Some "") i)) as E1.
  { reflexivity. }
  assert (readBounds zero = readBounds (set_price_max None i)) as E2.
  { reflexivity. }
  unfold applyFilters, filterStocks. rewrite <- E1, <- E2.
  repeat split; vm_compute; reflexivity.
Qed.

(** * More properties of the page *)

(** ** What the render functions leave *)

Lemma with_grid_with_grid (st : State) (g1 g2 : list node) :
  with_grid (with_grid st g1) g2 = with_grid st g2.
Proof. reflexivity. Qed.

Lemma renderAll_with_grid (l : list Stock) (st : State) :
  renderAll l st = with_grid st (stock_grid st ++ (Card <$> l)).
Proof.
  revert st. induction l as [|x l IH]; intros st; simpl.
  - rewrite app_nil_r. by destruct st.
  - rewrite IH. unfold renderStockCard. rewrite with_grid_with_grid. simpl.
    by rewrite <- app_assoc.
Qed.

Lemma applyFilters_with_grid localeCompare (i : FilterInputs) (st : State) :
  applyFilters localeCompare i st
  = with_grid st
      match allStocks st with
      | None => []
      | Some all =>
          cardsOr NoMatch (filterStocks localeCompare i (isGlobalMode st) all)
      end.
Proof.
  unfold applyFilters. destruct (allStocks st) as [all|]; [|done].
  destruct (filterStocks _ _ _ _) as [|x l] eqn:E; [done|].
  by rewrite renderAll_with_grid.
Qed.

Lemma processData_with_grid (data : MarketData) (st : State) :
  let all := match stocks data with Some l => l | None => [] end in
  processData data st
  = with_grid (with_allStocks st (Some all))
      (cardsOr LoadingStocks (List.filter (inRegion (isGlobalMode st)) all)).
Proof.
  simpl. unfold processData.
  change (isGlobalMode (with_grid (with_allStocks st _) [])) with (isGlobalMode st).
  destruct (List.filter _ _) as [|x l] eqn:E; [done|].
  by rewrite renderAll_with_grid.
Qed.

Lemma fetchFullBatchInBackground_success status incoming now st :
  ok status = true →
  let data := {| stocks := Some incoming |} in
  fetchFullBatchInBackground (Responded status (Json data)) now st
  = with_grid
      (with_allStocks (cache_write data now st)
         (fst (merge (allStocks st) incoming)))
      (stock_grid st
       ++ (Card <$> List.filter (inRegion (isGlobalMode st))
                      (snd (merge (allStocks st) incoming)))).
Proof.
  intros Hok. simpl. rewrite Hok. simpl.
  destruct (merge (allStocks st) incoming) as [ws d].
  by rewrite renderAll_with_grid.
Qed.

(** ** Search *)

Lemma prefix_toLowerCase_ascii (a b : string) :
  String.prefix a b = true →
  String.prefix (toLowerCase_ascii a) (toLowerCase_ascii b) = true.
Proof.
  revert b. induction a as [|c a IH]; intros [|d b]; simpl; try done.
  destruct (ascii_dec c d) as [->|]; [|done]. intros H.
  destruct (ascii_dec (lower_ascii d) (lower_ascii d)); [by apply IH|done].
Qed.

Lemma includes_toLowerCase_ascii (s q : string) :
  includes s q = true →
  includes (toLowerCase_ascii s) (toLowerCase_ascii q) = true.
Proof.
  induction s as [|c s IH]; simpl; intros H; apply orb_true_iff in H;
    apply orb_true_iff.
  - destruct H as [H|H]; [|done]. left.
    by apply (prefix_toLowerCase_ascii q "").
  - destruct H as [H|H]; [left|right; by apply IH].
    by apply (prefix_toLowerCase_ascii q (String c s)).
Qed.

Lemma lower_ascii_isAscii (c : ascii) :
  (nat_of_ascii (lower_ascii c) <? 128)%nat = (nat_of_ascii c <? 128)%nat.
Proof. destruct c as [[] [] [] [] [] [] [] []]; vm_compute; reflexivity. Qed.

Lemma isAscii_toLowerCase_ascii (s : string) :
  isAscii (toLowerCase_ascii s) = isAscii s.
Proof.
  induction s as [|c s IH]; [done|].
  cbn [isAscii toLowerCase_ascii]. by rewrite lower_ascii_isAscii, IH.
Qed.

Lemma lower_ascii_space (c : ascii) : is_space c = true → lower_ascii c = c.
Proof.
  destruct c as [[] [] [] [] [] [] [] []]; vm_compute; intros H;
    first [reflexivity | discriminate H].
Qed.

Lemma lower_ascii_not_space (c : ascii) :
  is_space c = false → is_space (lower_ascii c) = false.
Proof.
  destruct c as [[] [] [] [] [] [] [] []]; vm_compute; intros H;
    first [reflexivity | discriminate H].
Qed.

Lemma all_space_toLowerCase_ascii (s : string) :
  all_space (toLowerCase_ascii s) = all_space s.
Proof.
  induction s as [|c s IH]; simpl; [done|]. rewrite IH.
  destruct (is_space c) eqn:E.
  - by rewrite (lower_ascii_space c E), E.
  - by rewrite (lower_ascii_not_space c E).
Qed.

Lemma skip_spaces_empty (s : string) :
  skip_spaces s = "" ↔ all_space s = true.
Proof.
  induction s as [|c s IH]; simpl; [done|].
  destruct (is_space c); simpl; [done|]. split; discriminate.
Qed.

Lemma rev_app_empty (s acc : string) :
  String.rev_app s acc = "" → s = "" ∧ acc = "".
Proof.
  revert acc. induction s as [|c s IH]; intros acc; simpl; [done|].
  intros H. apply IH in H as [_ H]. discriminate H.
Qed.

Lemma trim_ascii_empty (s : string) : trim_ascii s = "" ↔ all_space s = true.
Proof.
  unfold trim_ascii. rewrite <- skip_spaces_empty. split.
  - intros H. apply rev_app_empty in H as [H _].
    destruct (skip_spaces s) as [|c r] eqn:E; [done|].
    assert (is_space c = false) as Hc.
    { clear H. induction s as [|d s IH]; simpl in E; [done|].
      destruct (is_space d) eqn:Ed; [by apply IH|]. by injection E as <- _. }
    apply skip_spaces_empty in H.
    assert (∀ t acc, all_space (String.rev_app t acc) = all_space t && all_space acc)
      as Hrev.
    { induction t as [|d t IH]; intros acc; simpl; [done|].
      rewrite IH. simpl. by destruct (is_space d), (all_space t), (all_space acc). }
    unfold String.rev in H. rewrite Hrev in H. simpl in H.
    rewrite Hc in H. discriminate H.
  - intros ->. reflexivity.
Qed.

Lemma searchMatches_elem_of (toLowerCase : string -> string)
    (query : string) (global : bool)
    (all : list Stock) (s : Stock) :
  s ∈ searchMatches toLowerCase query global all
  ↔ s ∈ all ∧ isStockGlobal s = global
    ∧ (includes (toLowerCase (symbol s)) query = true
       ∨ includes (toLowerCase (name s)) query = true).
Proof.
  unfold searchMatches. rewrite filter_elem_of. unfold searchHit.
  destruct global, (isStockGlobal s); simpl; rewrite ?orb_true_iff;
    intuition congruence.
Qed.

Section SearchProperties.

Variable toLowerCase : string -> string.
Variable trim : string -> string.

(** A second run of the listener on the same text changes nothing. *)
Lemma onSearchInput_again (value : string) (pg : Page) :
  onSearchInput toLowerCase trim value (onSearchInput toLowerCase trim value pg)
  = onSearchInput toLowerCase trim value pg.
Proof.
  unfold onSearchInput.
  cbn [page_state let_allStocks search_panel input_listeners].
  by destruct (String.eqb (trim (toLowerCase value)) "").
Qed.

(** The event runs the listener when there is one. *)
Lemma inputEvent_listeners (value : string) (pg : Page) :
  inputEvent toLowerCase trim value pg
  = match input_listeners pg with
    | O => pg
    | S _ => onSearchInput toLowerCase trim value pg
    end.
Proof.
  unfold inputEvent. destruct (input_listeners pg) as [|n]; [done|].
  induction n as [|n IH]; [done|].
  change (onSearchInput toLowerCase trim value
            (Nat.iter (S n) (onSearchInput toLowerCase trim value) pg)
          = onSearchInput toLowerCase trim value pg).
  rewrite IH. apply onSearchInput_again.
Qed.

Lemma inputEvent_attached (value : string) (pg : Page) :
  (0 < input_listeners pg)%nat →
  inputEvent toLowerCase trim value pg = onSearchInput toLowerCase trim value pg.
Proof.
  intros H. rewrite inputEvent_listeners.
  destruct (input_listeners pg); [lia|done].
Qed.

Lemma query_of_ascii (value : string) :
  agreesOnAscii toLowerCase toLowerCase_ascii →
  agreesOnAscii trim trim_ascii →
  isAscii value = true →
  trim (toLowerCase value) = trim_ascii (toLowerCase_ascii value).
Proof.
  intros Hl Ht Hv. rewrite (Hl value Hv). apply Ht.
  by rewrite isAscii_toLowerCase_ascii.
Qed.

End SearchProperties.

(** [processData] adds a listener exactly when it has drawn cards. *)
Lemma processDataPage_listeners (data : MarketData) (pg : Page) :
  let drawn := processDataPage data pg in
  (stock_grid (page_state drawn) = [Notice LoadingStocks]
   ∧ input_listeners drawn = input_listeners pg)
  ∨ ((∃ s, Card s ∈ stock_grid (page_state drawn))
     ∧ input_listeners drawn = S (input_listeners pg)).
Proof.
  unfold processDataPage. cbn [page_state input_listeners].
  rewrite processData_with_grid. cbn [stock_grid with_grid].
  destruct (List.filter _ _) as [|x l]; [by left|right].
  split; [|done]. exists x. simpl. left.
Qed.

(** X1: An [input] event on the search box does something only once
    [processData] has drawn cards, which is when the listener is added; on
    a page without a listener it changes nothing.  With a listener and
    something typed: the matches are records of the script variable
    [allStocks], in arrival order, all of the selected region; a record is
    a match exactly when the query (the text lower-cased and trimmed by the
    host) occurs in its lower-cased symbol or name; the panel is shown, with
    the "No results found" line exactly when nothing matches.  The search
    changes nothing else. *)
Theorem search_is_region_scoped
    (toLowerCase trim : string -> string) (value : string) (pg : Page) :
  let query := trim (toLowerCase value) in
  let global := isGlobalMode (page_state pg) in
  let matches := searchMatches toLowerCase query global (let_allStocks pg) in
  let after := inputEvent toLowerCase trim value pg in
  (input_listeners pg = 0%nat → after = pg)
  ∧ ((0 < input_listeners pg)%nat → query ≠ "" →
     sublist matches (let_allStocks pg)
     ∧ (∀ s, s ∈ matches
             ↔ s ∈ let_allStocks pg ∧ inRegion global s = true
               ∧ (includes (toLowerCase (symbol s)) query = true
                  ∨ includes (toLowerCase (name s)) query = true))
     ∧ panel_hidden (search_panel after) = false
     ∧ (matches = [] ↔ panel_content (search_panel after) = NoResultsFound)
     ∧ (matches ≠ [] → panel_content (search_panel after) = Items matches)
     ∧ page_state after = page_state pg
     ∧ let_allStocks after = let_allStocks pg
     ∧ input_listeners after = input_listeners pg)
  ∧ (∀ data,
       let drawn := processDataPage data pg in
       (stock_grid (page_state drawn) = [Notice LoadingStocks]
        ∧ input_listeners drawn = input_listeners pg)
       ∨ ((∃ s, Card s ∈ stock_grid (page_state drawn))
          ∧ input_listeners drawn = S (input_listeners pg))).
Proof.
  intros query global matches after. split.
  { intros H. subst after. by rewrite inputEvent_listeners, H. }
  split; [|intros data; apply processDataPage_listeners].
  intros Hn Hq.
  split; [apply filter_sublist|]. split.
  { intros s. unfold matches. rewrite searchMatches_elem_of.
    unfold inRegion. destruct global, (isStockGlobal s); simpl; intuition congruence. }
  subst after. rewrite (inputEvent_attached _ _ _ _ Hn).
  unfold onSearchInput. fold query. fold global. fold matches.
  apply String.eqb_neq in Hq. rewrite Hq.
  destruct matches as [|x l]; simpl; repeat split; try done.
Qed.

Lemma search_is_region_scoped_witness :
  panel_content
    (search_panel (inputEvent toLowerCase_ascii trim_ascii " Ap " sampleSite))
  = Items (searchMatches toLowerCase_ascii "ap" true sampleStocks).
Proof.
  pose proof (search_is_region_scoped toLowerCase_ascii trim_ascii " Ap "
                sampleSite) as H.
  destruct H as (_ & H & _).
  destruct H as (_ & _ & _ & _ & H & _).
  - vm_compute. lia.
  - discriminate.
  - apply H. discriminate.
Defined.

(** X2: On a page where the listener is attached, typing a part of the
    symbol or of the name of a record, in any letter case and with white
    space around it, finds the record when it is in the selected region.
    This is for ASCII texts (the text typed and the symbol or name it is a
    part of), on which the host's [toLowerCase] changes the letters A to Z
    and its [trim] takes off the ASCII white space. *)
Theorem search_ignores_letter_case
    (toLowerCase trim : string -> string)
    (value part : string) (pg : Page) (s : Stock) :
  agreesOnAscii toLowerCase toLowerCase_ascii →
  agreesOnAscii trim trim_ascii →
  (0 < input_listeners pg)%nat →
  s ∈ let_allStocks pg →
  inRegion (isGlobalMode (page_state pg)) s = true →
  (isAscii (symbol s) = true ∧ includes (symbol s) part = true)
  ∨ (isAscii (name s) = true ∧ includes (name s) part = true) →
  isAscii value = true →
  trim_ascii (toLowerCase_ascii value) = toLowerCase_ascii part →
  part ≠ "" →
  ∃ matches,
    panel_content (search_panel (inputEvent toLowerCase trim value pg))
    = Items matches
    ∧ s ∈ matches
    ∧ panel_hidden (search_panel (inputEvent toLowerCase trim value pg)) = false.
Proof.
  intros Hl Ht Hn Hin Hreg Hpart Hv Hq Hne.
  assert (toLowerCase_ascii part ≠ "") as Hne'.
  { destruct part; [done|]. simpl. discriminate. }
  assert (s ∈ searchMatches toLowerCase (toLowerCase_ascii part)
                (isGlobalMode (page_state pg)) (let_allStocks pg)) as Hs.
  { apply searchMatches_elem_of. split; [done|]. split.
    - revert Hreg. unfold inRegion.
      by destruct (isGlobalMode _), (isStockGlobal s).
    - destruct Hpart as [[Ha H]|[Ha H]]; [left|right]; rewrite (Hl _ Ha);
        by apply includes_toLowerCase_ascii. }
  rewrite (inputEvent_attached _ _ _ _ Hn).
  unfold onSearchInput. rewrite (query_of_ascii _ _ value Hl Ht Hv), Hq.
  apply String.eqb_neq in Hne'. rewrite Hne'.
  destruct (searchMatches _ _ _ _) as [|x l] eqn:E.
  - by apply elem_of_nil in Hs.
  - by exists (x :: l).
Qed.

Lemma search_ignores_letter_case_witness :
  ∃ matches,
    panel_content
      (search_panel (inputEvent toLowerCase_ascii trim_ascii "  mIcRo " sampleSite))
    = Items matches
    ∧ {| symbol := "MSFT"; name := "Microsoft"; price := 15; change_pct := 1;
         rsi := JNum 55; volume := JNum 1000 |} ∈ matches
    ∧ panel_hidden
        (search_panel (inputEvent toLowerCase_ascii trim_ascii "  mIcRo " sampleSite))
      = false.
Proof.
  apply (search_ignores_letter_case toLowerCase_ascii trim_ascii
           "  mIcRo " "Micro" sampleSite).
  - intros s _. reflexivity.
  - intros s _. reflexivity.
  - vm_compute. lia.
  - left.
  - reflexivity.
  - right. split; reflexivity.
  - reflexivity.
  - reflexivity.
  - discriminate.
Defined.

(** X3: On a page where the listener is attached, the results are hidden,
    and nothing is searched, exactly when the query (the text lower-cased
    and trimmed by the host) is empty; the list shown before stays in the
    hidden panel.  For a text of ASCII characters that is exactly when the
    text is empty or made of white space only.  On a page without a
    listener the event changes nothing. *)
Theorem search_blank_query_hides_results
    (toLowerCase trim : string -> string) (value : string) (pg : Page) :
  let after := inputEvent toLowerCase trim value pg in
  let hiddenPanel :=
    {| page_state := page_state pg; let_allStocks := let_allStocks pg;
       search_panel :=
         {| panel_hidden := true;
            panel_content := panel_content (search_panel pg) |};
       input_listeners := input_listeners pg |} in
  (input_listeners pg = 0%nat → after = pg)
  ∧ ((0 < input_listeners pg)%nat →
     (trim (toLowerCase value) = "" → after = hiddenPanel)
     ∧ (trim (toLowerCase value) ≠ "" →
        panel_hidden (search_panel after) = false)
     ∧ (agreesOnAscii toLowerCase toLowerCase_ascii →
        agreesOnAscii trim trim_ascii →
        isAscii value = true →
        (all_space value = true → after = hiddenPanel)
        ∧ (all_space value = false →
           panel_hidden (search_panel after) = false))).
Proof.
  intros after hiddenPanel. split.
  { intros H. subst after. by rewrite inputEvent_listeners, H. }
  intros Hn. subst after. rewrite (inputEvent_attached _ _ _ _ Hn).
  assert (trim (toLowerCase value) = "" →
          onSearchInput toLowerCase trim value pg = hiddenPanel) as Hblank.
  { intros H. unfold onSearchInput. by rewrite H. }
  assert (trim (toLowerCase value) ≠ "" →
          panel_hidden (search_panel (onSearchInput toLowerCase trim value pg))
          = false) as Hshown.
  { intros H. unfold onSearchInput. apply String.eqb_neq in H. rewrite H.
    by destruct (searchMatches _ _ _ _). }
  split; [done|]. split; [done|].
  intros Hl Ht Hv.
  pose proof (query_of_ascii _ _ value Hl Ht Hv) as Hq.
  split; intros H.
  - apply Hblank. rewrite Hq. apply trim_ascii_empty.
    by rewrite all_space_toLowerCase_ascii.
  - apply Hshown. rewrite Hq, trim_ascii_empty, all_space_toLowerCase_ascii, H.
    discriminate.
Qed.

Lemma search_blank_query_hides_results_witness :
  panel_hidden
    (search_panel (inputEvent toLowerCase_ascii trim_ascii "   " sampleSite))
  = true
  ∧ panel_hidden
      (search_panel (inputEvent toLowerCase_ascii trim_ascii " x " sampleSite))
    = false
  ∧ inputEvent toLowerCase_ascii trim_ascii " x " freshSite = freshSite.
Proof.
  assert (0 < input_listeners sampleSite)%nat as Hn by (vm_compute; lia).
  split; [|split].
  - destruct (proj2 (search_blank_query_hides_results
                       toLowerCase_ascii trim_ascii "   " sampleSite) Hn)
      as (H & _).
    rewrite H; reflexivity.
  - destruct (proj2 (search_blank_query_hides_results
                       toLowerCase_ascii trim_ascii " x " sampleSite) Hn)
      as (_ & H & _).
    apply H. discriminate.
  - apply (proj1 (search_blank_query_hides_results
                    toLowerCase_ascii trim_ascii " x " freshSite)).
    reflexivity.
Defined.

(** X4: Stage 2 merges into [window.allStocks] only: the search, which reads
    the script variable [allStocks], goes on searching the list of stage 1.
    A record that stage 2 added is in the working set and is never among
    the matches.  Stage 2 adds no listener, and an [input] event gives the
    same panel after it as before it. *)
Theorem search_misses_stage2_records
    (toLowerCase trim : string -> string)
    (quickList full : list Stock) (status : nat) (now : Z)
    (value : string) (pg : Page) (r : Stock) :
  ok status = true →
  r ∈ full → symbol r ∉ (symbol <$> quickList) →
  let pg1 := processDataPage {| stocks := Some quickList |} pg in
  let pg2 :=
    fetchFullBatchInBackgroundPage
      (Responded status (Json {| stocks := Some full |})) now pg1 in
  r ∈ workingSet (allStocks (page_state pg2))
  ∧ let_allStocks pg2 = quickList
  ∧ search_panel (onSearchInput toLowerCase trim value pg2)
    = search_panel (onSearchInput toLowerCase trim value pg1)
  ∧ (∀ matches,
       panel_content (search_panel (onSearchInput toLowerCase trim value pg2))
       = Items matches →
       panel_hidden (search_panel (onSearchInput toLowerCase trim value pg2))
       = false →
       r ∉ matches)
  ∧ input_listeners pg2 = input_listeners pg1
  ∧ search_panel (inputEvent toLowerCase trim value pg2)
    = search_panel (inputEvent toLowerCase trim value pg1)
  ∧ ((0 < input_listeners pg2)%nat →
     ∀ matches,
       panel_content (search_panel (inputEvent toLowerCase trim value pg2))
       = Items matches →
       panel_hidden (search_panel (inputEvent toLowerCase trim value pg2))
       = false →
       r ∉ matches).
Proof.
  intros Hok Hr Hnew pg1 pg2.
  assert (region_toggle (page_state pg2) = region_toggle (page_state pg1)) as Hreg.
  { subst pg2. simpl. rewrite Hok. simpl.
    destruct (merge _ full) as [ws d].
    by rewrite (proj1 (proj2 (proj2 (proj2 (renderAll_frame _ _))))). }
  assert (search_panel (onSearchInput toLowerCase trim value pg2)
          = search_panel (onSearchInput toLowerCase trim value pg1)) as Hsame.
  { unfold onSearchInput, isGlobalMode. by rewrite Hreg. }
  assert (∀ matches,
            panel_content (search_panel (onSearchInput toLowerCase trim value pg2))
            = Items matches →
            panel_hidden (search_panel (onSearchInput toLowerCase trim value pg2))
            = false →
            r ∉ matches) as Hmiss.
  { intros matches Hc Hh Hin.
    unfold onSearchInput in Hc, Hh.
    cbn [search_panel panel_content panel_hidden] in Hc, Hh.
    destruct (String.eqb (trim (toLowerCase value)) ""); [done|].
    change (let_allStocks pg2) with quickList in Hc.
    destruct (searchMatches _ _ _ quickList) as [|x l] eqn:E; [done|].
    injection Hc as <-. rewrite <- E in Hin.
    apply searchMatches_elem_of in Hin as [Hin _].
    apply Hnew. apply list_elem_of_fmap. by exists r. }
  split.
  { subst pg2. cbn [page_state fetchFullBatchInBackgroundPage].
    rewrite (fetchFullBatchInBackground_allStocks status
               {| stocks := Some full |} full now _ Hok eq_refl).
    rewrite merge_workingSet, merge_delta, elem_of_app. right.
    apply newStocksOf_elem_of. split; [done|].
    subst pg1. cbn [page_state processDataPage].
    by rewrite (proj1 (proj2 (processData_frame _ _))). }
  split; [done|]. split; [done|]. split; [done|]. split; [done|].
  split.
  - rewrite !inputEvent_listeners.
    change (input_listeners pg2) with (input_listeners pg1).
    by destruct (input_listeners pg1).
  - intros Hn. rewrite (inputEvent_attached _ _ _ _ Hn). apply Hmiss.
Qed.

Lemma search_misses_stage2_records_witness :
  let pg1 := processDataPage {| stocks := Some [quote "AAA" 10] |} freshSite in
  let pg2 :=
    fetchFullBatchInBackgroundPage
      (Responded 200 (Json {| stocks := Some [quote "AAA" 11; quote "BBB" 5] |}))
      2000 pg1 in
  quote "BBB" 5 ∈ workingSet (allStocks (page_state pg2))
  ∧ let_allStocks pg2 = [quote "AAA" 10]
  ∧ search_panel (onSearchInput toLowerCase_ascii trim_ascii "b" pg2)
    = search_panel (onSearchInput toLowerCase_ascii trim_ascii "b" pg1)
  ∧ (∀ matches,
       panel_content (search_panel (onSearchInput toLowerCase_ascii trim_ascii "b" pg2))
       = Items matches →
       panel_hidden (search_panel (onSearchInput toLowerCase_ascii trim_ascii "b" pg2))
       = false →
       quote "BBB" 5 ∉ matches)
  ∧ input_listeners pg2 = input_listeners pg1
  ∧ search_panel (inputEvent toLowerCase_ascii trim_ascii "b" pg2)
    = search_panel (inputEvent toLowerCase_ascii trim_ascii "b" pg1)
  ∧ ((0 < input_listeners pg2)%nat →
     ∀ matches,
       panel_content (search_panel (inputEvent toLowerCase_ascii trim_ascii "b" pg2))
       = Items matches →
       panel_hidden (search_panel (inputEvent toLowerCase_ascii trim_ascii "b" pg2))
       = false →
       quote "BBB" 5 ∉ matches).
Proof.
  apply (search_misses_stage2_records toLowerCase_ascii trim_ascii
           [quote "AAA" 10] [quote "AAA" 11; quote "BBB" 5] 200 2000 "b"
           freshSite (quote "BBB" 5)).
  - reflexivity.
  - right. left.
  - simpl. intros H. apply list_elem_of_singleton in H. discriminate H.
Defined.

(** ** The filter, whatever the bounds *)

(** X5: [applyFilters] writes the grid and nothing else, and each run starts
    from the working set: the result of a run does not depend on the runs
    before it (bounds do not pile up, and running twice with the same
    inputs is running once). *)
Theorem applyFilters_starts_from_working_set
    (localeCompare : string -> string -> Z) (i j : FilterInputs) (st : State) :
  let after := applyFilters localeCompare i st in
  sessionStorage after = sessionStorage st
  ∧ allStocks after = allStocks st
  ∧ currentSymbol after = currentSymbol st
  ∧ region_toggle after = region_toggle st
  ∧ applyFilters localeCompare j after = applyFilters localeCompare j st
  ∧ applyFilters localeCompare i after = after.
Proof.
  simpl. rewrite !(applyFilters_with_grid localeCompare i st).
  repeat split; rewrite applyFilters_with_grid; simpl;
    by rewrite ?applyFilters_with_grid.
Qed.

Lemma sortBySymbol_sublist_Permutation localeCompare (l all : list Stock) :
  sublist l all → ∃ l', sublist l' all ∧ sortBySymbol localeCompare l ≡ₚ l'.
Proof. intros H. exists l. split; [done|]. apply sortBySymbol_Permutation. Qed.

(** X6: For any bounds typed in: the filter shows records of the working set
    of the selected region only, none more often than the working set has
    it; the domestic result is in arrival order, and the global result is
    sorted by symbol in the order of a consistent [localeCompare]. *)
Theorem filterStocks_selects (localeCompare : string -> string -> Z)
    (i : FilterInputs) (all : list Stock) :
  (∀ a b, (localeCompare a b <= 0)%Z ∨ (localeCompare b a <= 0)%Z) →
  (∀ a b c, (localeCompare a b <= 0)%Z → (localeCompare b c <= 0)%Z →
            (localeCompare a c <= 0)%Z) →
  (∀ global s, s ∈ filterStocks localeCompare i global all →
               s ∈ all ∧ inRegion global s = true)
  ∧ sublist (filterStocks localeCompare i false all) all
  ∧ (∃ l, sublist l all ∧ filterStocks localeCompare i true all ≡ₚ l)
  ∧ StronglySorted (symbolLe localeCompare) (filterStocks localeCompare i true all)
  ∧ (NoDup all → ∀ global, NoDup (filterStocks localeCompare i global all)).
Proof.
  intros Htotal Htrans.
  assert (∀ g, sublist (List.filter (passesValues (readBounds i))
                          (List.filter (inRegion g) all)) all) as Hsub.
  { intros g. etrans; apply filter_sublist. }
  split.
  { intros g s Hs. apply filterStocks_elem_of in Hs. tauto. }
  split; [apply Hsub|]. split.
  { by apply sortBySymbol_sublist_Permutation. }
  split; [by apply sortBySymbol_sorted|].
  intros Hnd g. unfold filterStocks.
  pose proof (sublist_NoDup _ _ Hnd (Hsub g)) as H.
  destruct g; [|done]. by rewrite sortBySymbol_Permutation.
Qed.

Lemma filterStocks_selects_witness :
  sublist (filterStocks codeUnitCompare price1020 false sampleStocks) sampleStocks
  ∧ StronglySorted (symbolLe codeUnitCompare)
      (filterStocks codeUnitCompare price1020 true sampleStocks)
  ∧ NoDup (filterStocks codeUnitCompare price1020 true sampleStocks).
Proof.
  destruct (filterStocks_selects codeUnitCompare price1020 sampleStocks
              codeUnitCompare_total codeUnitCompare_trans)
    as (_ & H1 & _ & H2 & H3).
  split; [done|]. split; [done|]. apply H3.
  apply NoDup_ListNoDup. repeat constructor; simpl; intuition discriminate.
Defined.

Lemma num_or_zeroToEmpty (v : option string) (d : number) :
  num_or (parseFloat (zeroToEmpty v)) d = num_or (parseFloat v) d.
Proof.
  destruct v as [t|]; [|done]. simpl.
  destruct (String.eqb_spec t "0") as [->|]; reflexivity.
Qed.

(** X7: The text 0 in any of the seven inputs is the same as no text: the
    parsed 0 is falsy and the default takes its place.  So a change-min of
    0 ("gainers only") is no bound at all, and neither is a change-max,
    a price-max or an RSI-max of 0. *)
Theorem zero_bound_is_no_bound
    (localeCompare : string -> string -> Z)
    (i : FilterInputs) (global : bool) (all : list Stock) (st : State) :
  readBounds (mapInputs zeroToEmpty i) = readBounds i
  ∧ filterStocks localeCompare (mapInputs zeroToEmpty i) global all
    = filterStocks localeCompare i global all
  ∧ applyFilters localeCompare (mapInputs zeroToEmpty i) st
    = applyFilters localeCompare i st
  ∧ (filter_change_min i = Some "0" → changeMin (readBounds i) = NegInf)
  ∧ (filter_change_max i = Some "0" → changeMax (readBounds i) = PosInf)
  ∧ (filter_rsi_max i = Some "0" → rsiMax (readBounds i) = Fin 100).
Proof.
  assert (readBounds (mapInputs zeroToEmpty i) = readBounds i) as E.
  { unfold readBounds, mapInputs. simpl. by rewrite !num_or_zeroToEmpty. }
  split; [done|]. split.
  { unfold filterStocks. by rewrite E. }
  split.
  { rewrite !applyFilters_with_grid. unfold filterStocks. by rewrite E. }
  repeat split; intros H; simpl; rewrite H; reflexivity.
Qed.

Lemma zero_bound_is_no_bound_witness :
  let gainersOnly :=
    {| filter_price_min := Some ""; filter_price_max := Some "";
       filter_rsi_min := Some ""; filter_rsi_max := Some "";
       filter_change_min := Some "0"; filter_change_max := Some "";
       filter_vol_min := Some "" |} in
  changeMin (readBounds gainersOnly) = NegInf
  ∧ filterStocks codeUnitCompare gainersOnly false sampleStocks
    = filterStocks codeUnitCompare noFilters false sampleStocks.
Proof.
  destruct (zero_bound_is_no_bound codeUnitCompare
              {| filter_price_min := Some ""; filter_price_max := Some "";
                 filter_rsi_min := Some ""; filter_rsi_max := Some "";
                 filter_change_min := Some "0"; filter_change_max := Some "";
                 filter_vol_min := Some "" |} false sampleStocks freshPage)
    as (_ & H2 & _ & H4 & _).
  split.
  - apply H4. reflexivity.
  - rewrite <- H2. reflexivity.
Defined.

(** ** The regions *)

Lemma substring_all (s : string) : substring 0 (String.length s) s = s.
Proof. induction s as [|c s IH]; simpl; [done|]. by rewrite IH. Qed.

Lemma append_cons (c : ascii) (p t : string) :
  String.append (String c p) t = String c (String.append p t).
Proof. reflexivity. Qed.

Lemma append_empty (t : string) : String.append "" t = t.
Proof. reflexivity. Qed.

Lemma substring_split (n : nat) (s : string) :
  (n <= String.length s)%nat →
  ∃ p, s = String.append p (substring n (String.length s - n) s)
       ∧ String.length p = n.
Proof.
  revert s. induction n as [|n IH]; intros s Hn.
  - exists "". by rewrite Nat.sub_0_r, substring_all, append_empty.
  - destruct s as [|c s]; simpl in Hn; [lia|].
    destruct (IH s ltac:(lia)) as (p & Hp & Hl).
    exists (String c p). rewrite append_cons. simpl. rewrite <- Hp. by rewrite Hl.
Qed.

Lemma substring_append (p t : string) (m : nat) :
  substring (String.length p) m (String.append p t) = substring 0 m t.
Proof.
  induction p as [|c p IH]; [by rewrite append_empty|].
  rewrite append_cons. simpl. apply IH.
Qed.

Lemma length_append (p t : string) :
  String.length (String.append p t) = (String.length p + String.length t)%nat.
Proof.
  induction p as [|c p IH]; [by rewrite append_empty|].
  rewrite append_cons. simpl. by rewrite IH.
Qed.

Lemma endsWith_iff (s suffix : string) :
  endsWith s suffix = true ↔ ∃ p, s = String.append p suffix.
Proof.
  unfold endsWith. rewrite andb_true_iff, Nat.leb_le, String.eqb_eq. split.
  - intros [Hk Hs].
    destruct (substring_split (String.length s - String.length suffix) s
                ltac:(lia)) as (p & Hp & _).
    exists p. rewrite Hp at 1. f_equal. rewrite <- Hs at 3. f_equal. lia.
  - intros [p ->]. rewrite length_append. split; [lia|].
    replace (String.length p + String.length suffix - String.length suffix)%nat
      with (String.length p) by lia.
    by rewrite substring_append, substring_all.
Qed.

Lemma filter_region_Permutation (all : list Stock) :
  List.filter (inRegion true) all ++ List.filter (inRegion false) all ≡ₚ all.
Proof.
  induction all as [|x l IH]; simpl; [done|].
  destruct (isStockGlobal x); simpl.
  - by rewrite IH.
  - rewrite <- Permutation_middle. by rewrite IH.
Qed.

(** X8: A record is domestic exactly when its symbol ends with ".IS", letter
    case included, and global otherwise; the two regions split any list:
    together they hold every record as often as the list does, and no
    record is of both. *)
Theorem regions_split_the_records (all : list Stock) :
  (∀ s, inRegion false s = true ↔ ∃ p, symbol s = String.append p ".IS")
  ∧ (∀ s, inRegion true s = negb (inRegion false s))
  ∧ List.filter (inRegion true) all ++ List.filter (inRegion false) all ≡ₚ all
  ∧ inRegion false (quote "akbnk.is" 1) = false.
Proof.
  split.
  { intros s. unfold inRegion, isStockGlobal. rewrite negb_involutive.
    apply endsWith_iff. }
  split.
  { intros s. unfold inRegion. by destruct (isStockGlobal s). }
  split; [apply filter_region_Permutation | reflexivity].
Qed.

(** ** The grid *)

Lemma elem_of_cardsOr (m : notice) (l : list Stock) (s : Stock) :
  Card s ∈ cardsOr m l → s ∈ l.
Proof.
  destruct l as [|x l]; simpl.
  - intros H. apply list_elem_of_singleton in H. discriminate H.
  - intros H. change (Card s ∈ Card <$> (x :: l)) in H.
    apply list_elem_of_fmap in H as (y & [= ->] & Hy). done.
Qed.

Lemma gridShowsRegion_processData (data : MarketData) (st : State) :
  gridShowsRegion (processData data st).
Proof.
  intros s. rewrite processData_with_grid. simpl. intros H.
  apply elem_of_cardsOr, filter_elem_of in H. done.
Qed.

Lemma gridShowsRegion_fetchQuickBatch r now st :
  gridShowsRegion st → gridShowsRegion (fst (fetchQuickBatch r now st)).
Proof.
  intros Hst. destruct r as [|status [|data|]]; simpl; try done.
  - by destruct (ok status).
  - destruct (ok status); simpl; [|done].
    destruct (stocks data) eqn:E; simpl; apply gridShowsRegion_processData.
  - destruct (ok status); simpl; [|done]. intros s H. apply (Hst s H).
Qed.

(** X9: Every function that draws on the stock grid leaves on it only cards of
    records that are in the working set and of the region the switch
    selects: [processData] and [applyFilters] whatever the grid was, and
    the two stages, [init] and the portfolio toggle when it held before. *)
Theorem grid_shows_region_records
    (localeCompare : string -> string -> Z) (st : State)
    (data : MarketData) (i : FilterInputs) (r quick : fetched)
    (now nowQuick : Z) :
  gridShowsRegion (processData data st)
  ∧ gridShowsRegion (applyFilters localeCompare i st)
  ∧ (gridShowsRegion st →
     gridShowsRegion (fst (fetchQuickBatch r now st))
     ∧ gridShowsRegion (fetchFullBatchInBackground r now st)
     ∧ gridShowsRegion (fetchFullBatch r now st)
     ∧ gridShowsRegion (fst (init now quick nowQuick st))
     ∧ gridShowsRegion (togglePortfolioItem st)).
Proof.
  split; [apply gridShowsRegion_processData|]. split.
  { intros s. rewrite applyFilters_with_grid. simpl.
    destruct (allStocks st) as [all|]; simpl; [|by intros H%elem_of_nil].
    intros H. apply elem_of_cardsOr, filterStocks_elem_of in H. tauto. }
  intros Hst. split; [by apply gridShowsRegion_fetchQuickBatch|]. split.
  { destruct r as [|status [|d|]]; simpl; try done; destruct (ok status) eqn:Hok;
      simpl; try done.
    destruct (stocks d) as [incoming|] eqn:Hs.
    - pose proof (fetchFullBatchInBackground_success status incoming now st Hok) as E.
      simpl in E. rewrite Hok in E. simpl in E.
      destruct d as [ds]. simpl in Hs. subst ds. simpl. rewrite E.
      intros s. simpl. rewrite merge_workingSet, !elem_of_app.
      intros [H|H].
      + destruct (Hst s H) as [H1 H2]. split; [by left|done].
      + apply list_elem_of_fmap in H as (y & [= ->] & Hy).
        apply filter_elem_of in Hy as [Hy1 Hy2]. split; [by right|done].
    - intros s H. apply (Hst s H). }
  split.
  { destruct r as [|status [|d|]]; simpl; try done; destruct (ok status);
      simpl; try done.
    destruct (stocks d) as [[|x l]|] eqn:Hs; try done.
    apply gridShowsRegion_processData. }
  split.
  { unfold init. destruct (cacheValid now st).
    - destruct (getItem _ st ≫= item_data); simpl; [|done].
      apply gridShowsRegion_processData.
    - pose proof (gridShowsRegion_fetchQuickBatch quick nowQuick st Hst) as H.
      destruct (fetchQuickBatch quick nowQuick st) as [st' []]; simpl in *; [|done].
      intros s Hs. apply list_elem_of_singleton in Hs. discriminate Hs. }
  rewrite togglePortfolioItem_resolve.
  destruct (resolve st), (getPortfolio st); done.
Qed.

Lemma grid_shows_region_records_witness :
  let st := processData {| stocks := Some sampleStocks |} freshPage in
  gridShowsRegion
    (fetchFullBatchInBackground (success [quote "BBB" 5; quote "CCC.IS" 7]) 2000 st).
Proof.
  destruct (grid_shows_region_records codeUnitCompare
              (processData {| stocks := Some sampleStocks |} freshPage)
              {| stocks := Some sampleStocks |} noFilters
              (success [quote "BBB" 5; quote "CCC.IS" 7]) Rejected 2000 0)
    as (_ & _ & H).
  apply H.
  apply (proj1 (grid_shows_region_records codeUnitCompare freshPage
                  {| stocks := Some sampleStocks |} noFilters Rejected Rejected 0 0)).
Defined.

(** X10: Stage 2 only adds to the grid: what was on it, a notice included,
    stays where it was, and a success appends the cards of the new records
    of the selected region, in arrival order. *)
Theorem stage2_appends_cards (r : fetched) (now : Z) (st : State) :
  stock_grid st `prefix_of` stock_grid (fetchFullBatchInBackground r now st)
  ∧ (∀ status incoming,
       r = Responded status (Json {| stocks := Some incoming |}) →
       ok status = true →
       stock_grid (fetchFullBatchInBackground r now st)
       = stock_grid st
         ++ (Card <$> List.filter (inRegion (isGlobalMode st))
                        (newStocksOf (workingSet (allStocks st)) incoming))).
Proof.
  assert (∀ status incoming,
            r = Responded status (Json {| stocks := Some incoming |}) →
            ok status = true →
            stock_grid (fetchFullBatchInBackground r now st)
            = stock_grid st
              ++ (Card <$> List.filter (inRegion (isGlobalMode st))
                             (newStocksOf (workingSet (allStocks st)) incoming)))
    as Hsucc.
  { intros status incoming -> Hok.
    rewrite (fetchFullBatchInBackground_success status incoming now st Hok).
    simpl. by rewrite merge_delta. }
  split; [|done].
  destruct r as [|status [|[[incoming|]]|]]; simpl; try done;
    destruct (ok status) eqn:Hok; simpl; try done.
  pose proof (Hsucc status incoming eq_refl Hok) as E.
  simpl in E. rewrite Hok in E. simpl in E. rewrite E.
  by apply prefix_app_r.
Qed.

Lemma stage2_appends_cards_witness :
  let st := processData {| stocks := Some [quote "AAA.IS" 10] |} freshPage in
  stock_grid st = [Notice LoadingStocks]
  ∧ stock_grid (fetchFullBatchInBackground
                  (success [quote "AAA.IS" 11; quote "BBB" 5]) 2000 st)
    = [Notice LoadingStocks; Card (quote "BBB" 5)].
Proof.
  split; [reflexivity|].
  rewrite (proj2 (stage2_appends_cards
                    (success [quote "AAA.IS" 11; quote "BBB" 5]) 2000
                    (processData {| stocks := Some [quote "AAA.IS" 10] |} freshPage))
             200%nat [quote "AAA.IS" 11; quote "BBB" 5] eq_refl eq_refl).
  reflexivity.
Defined.

(** X11: [processData] replaces: the working set becomes the list it is given,
    as it is (not merged with the old one, duplicates not removed), the
    grid becomes the cards of its records of the selected region, in order,
    or the notice when there is none, and the storage is not touched.  A
    second call forgets the first. *)
Theorem processData_replaces (d1 d2 : MarketData) (st : State) :
  let list2 := match stocks d2 with Some l => l | None => [] end in
  let after := processData d2 (processData d1 st) in
  after = processData d2 st
  ∧ allStocks after = Some list2
  ∧ stock_grid after
    = cardsOr LoadingStocks (List.filter (inRegion (isGlobalMode st)) list2)
  ∧ sessionStorage after = sessionStorage st.
Proof.
  simpl. rewrite !processData_with_grid. simpl.
  change (isGlobalMode (with_grid _ _)) with (isGlobalMode st).
  done.
Qed.

(** ** The cache and [init] *)

Lemma fetchQuickBatch_failed r now st :
  failed r = true → fetchQuickBatch r now st = (st, true).
Proof.
  destruct r as [|status [|d|]]; simpl; intros H; try done.
  - by destruct (ok status).
  - by rewrite H.
  - by rewrite H.
Qed.

(** X12: When there is no valid cache entry and stage 1 fails (request rejected
    or timed out, non-success status, body not JSON), [init] shows the
    failure notice and stops: the storage and the working set are as they
    were, and neither stage 2 nor the insight and opportunities loaders are
    started. *)
Theorem init_stops_when_stage1_fails
    (now nowQuick : Z) (quick : fetched) (st : State) :
  cacheValid now st = false →
  failed quick = true →
  init now quick nowQuick st
  = (with_grid st [Notice LoadFailed], [CallFetchQuickBatch]).
Proof.
  intros Hc Hf. unfold init. by rewrite Hc, (fetchQuickBatch_failed _ _ _ Hf).
Qed.

Lemma init_stops_when_stage1_fails_witness :
  init 5000 (Responded 503 NotJson) 5001 freshPage
  = (with_grid freshPage [Notice LoadFailed], [CallFetchQuickBatch]).
Proof.
  apply init_stops_when_stage1_fails; reflexivity.
Defined.

Lemma cacheValid_storage (t : Z) (a b : State) :
  sessionStorage a = sessionStorage b → cacheValid t a = cacheValid t b.
Proof. intros H. unfold cacheValid, getItem. by rewrite H. Qed.

Lemma init_from_cache (data : MarketData) (t0 t : Z) (st st' : State)
    (quick : fetched) (nowQuick : Z) :
  sessionStorage st' = sessionStorage (cache_write data t0 st) →
  (t - t0 < 300000)%Z →
  init t quick nowQuick st'
  = (processData data st', [CallLoadAIInsight; CallLoadOpportunities]).
Proof.
  intros Hs Hlt. unfold init.
  rewrite (cacheValid_storage t st' _ Hs), cacheValid_written.
  apply Z.ltb_lt in Hlt. rewrite Hlt.
  unfold getItem at 1. rewrite Hs.
  change (sessionStorage (cache_write data t0 st) !! "wolfee_market_data")
    with (getItem "wolfee_market_data" (cache_write data t0 st)).
  by rewrite cache_write_data.
Qed.

Lemma cacheValid_written_null (t0 t1 : Z) (st : State) :
  cacheValid t1 (cache_write_null t0 st) = (t1 - t0 <? 300000)%Z.
Proof.
  unfold cacheValid.
  assert (getItem "wolfee_market_data" (cache_write_null t0 st)
          = Some (IText "null")) as -> by (by rewrite getItem_cache_write_null).
  assert (getItem "wolfee_cache_time" (cache_write_null t0 st)
          = Some (IText (toString t0))) as -> by (by rewrite getItem_cache_write_null).
  change (item_truthy (IText "null")) with true.
  rewrite toString_truthy. unfold item_parseInt.
  rewrite parseInt_toString. apply age_lt_ttl.
Qed.

Lemma init_from_cache_null (t0 t : Z) (st st' : State)
    (quick : fetched) (nowQuick : Z) :
  sessionStorage st' = sessionStorage (cache_write_null t0 st) →
  (t - t0 < 300000)%Z →
  init t quick nowQuick st' = (st', []).
Proof.
  intros Hs Hlt. unfold init.
  rewrite (cacheValid_storage t st' _ Hs), cacheValid_written_null.
  apply Z.ltb_lt in Hlt. rewrite Hlt.
  unfold getItem at 1. rewrite Hs.
  change (sessionStorage (cache_write_null t0 st) !! "wolfee_market_data")
    with (getItem "wolfee_market_data" (cache_write_null t0 st)).
  by rewrite getItem_cache_write_null.
Qed.

(** X13: A success response whose JSON body is an object with no [stocks]
    property, or is null, is stored by either stage before the stage trips
    over it.  For the next five
    minutes [init] takes it from the cache and fetches nothing.  When the
    body is an object, [init] empties the working set, shows the loading
    notice and starts the two loaders.  When the body is null, [init] throws
    in [processData]: the working set and the grid stay as they were and no
    loader is started. *)
Theorem body_without_stocks_poisons_cache
    (status : nat) (t0 t : Z) (st : State) (quick : fetched) (nowQuick : Z) :
  ok status = true →
  (t - t0 < 300000)%Z →
  (∀ stored,
     stored
     = fst (fetchQuickBatch (Responded status (Json {| stocks := None |})) t0 st)
     ∨ stored
       = fetchFullBatchInBackground
           (Responded status (Json {| stocks := None |})) t0 st →
     getItem "wolfee_market_data" stored = Some (IData {| stocks := None |})
     ∧ snd (init t quick nowQuick stored)
       = [CallLoadAIInsight; CallLoadOpportunities]
     ∧ allStocks (fst (init t quick nowQuick stored)) = Some []
     ∧ stock_grid (fst (init t quick nowQuick stored)) = [Notice LoadingStocks])
  ∧ (∀ stored,
       stored = fst (fetchQuickBatch (Responded status JsonNull) t0 st)
       ∨ stored = fetchFullBatchInBackground (Responded status JsonNull) t0 st →
       getItem "wolfee_market_data" stored = Some (IText "null")
       ∧ init t quick nowQuick stored = (stored, [])).
Proof.
  intros Hok Hlt. split; intros stored Hstored.
  - assert (sessionStorage stored
            = sessionStorage (cache_write {| stocks := None |} t0 st)) as Hs.
    { destruct Hstored as [-> | ->]; simpl; rewrite Hok; done. }
    rewrite (init_from_cache _ t0 t st stored quick nowQuick Hs Hlt).
    split.
    { unfold getItem. rewrite Hs. apply cache_write_data. }
    by rewrite processData_with_grid.
  - assert (sessionStorage stored = sessionStorage (cache_write_null t0 st)) as Hs.
    { destruct Hstored as [-> | ->]; simpl; rewrite Hok; done. }
    rewrite (init_from_cache_null t0 t st stored quick nowQuick Hs Hlt).
    split; [|done].
    unfold getItem. rewrite Hs.
    change (getItem "wolfee_market_data" (cache_write_null t0 st)
            = Some (IText "null")).
    by rewrite getItem_cache_write_null.
Qed.

Lemma body_without_stocks_poisons_cache_witness :
  let stored :=
    fetchFullBatchInBackground
      (Responded 200 (Json {| stocks := None |})) 1000 loadedPage in
  let storedNull :=
    fetchFullBatchInBackground (Responded 200 JsonNull) 1000 loadedPage in
  (getItem "wolfee_market_data" stored = Some (IData {| stocks := None |})
   ∧ snd (init 2000 Rejected 0 stored)
     = [CallLoadAIInsight; CallLoadOpportunities]
   ∧ allStocks (fst (init 2000 Rejected 0 stored)) = Some []
   ∧ stock_grid (fst (init 2000 Rejected 0 stored)) = [Notice LoadingStocks])
  ∧ (getItem "wolfee_market_data" storedNull = Some (IText "null")
     ∧ init 2000 Rejected 0 storedNull = (storedNull, [])).
Proof.
  destruct (body_without_stocks_poisons_cache 200 1000 2000 loadedPage Rejected 0)
    as [H1 H2].
  - reflexivity.
  - lia.
  - split.
    + apply H1. right. reflexivity.
    + apply H2. right. reflexivity.
Defined.

(** X14: After a successful stage 2 the cache holds the full list, not the
    merged working set: an [init] within five minutes (a reload) makes the
    working set the full list, whatever the merge had kept.  In the other
    revision, where [fetchFullBatch] replaces the working set, the reload
    gives the working set the page already had. *)
Theorem reload_after_stage2_shows_full_list
    (status : nat) (full : list Stock) (t1 t : Z) (st : State)
    (quick : fetched) (nowQuick : Z) :
  ok status = true →
  (t - t1 < 300000)%Z →
  let body := Responded status (Json {| stocks := Some full |}) in
  let merged := fetchFullBatchInBackground body t1 st in
  let replaced := fetchFullBatch body t1 st in
  allStocks merged = fst (merge (allStocks st) full)
  ∧ allStocks (fst (init t quick nowQuick merged)) = Some full
  ∧ snd (init t quick nowQuick merged)
    = [CallLoadAIInsight; CallLoadOpportunities]
  ∧ (full ≠ [] →
     allStocks replaced = Some full
     ∧ allStocks (fst (init t quick nowQuick replaced)) = allStocks replaced).
Proof.
  intros Hok Hlt body merged replaced.
  split.
  { by apply (fetchFullBatchInBackground_allStocks status {| stocks := Some full |}). }
  assert (sessionStorage merged
          = sessionStorage (cache_write {| stocks := Some full |} t1 st)) as Hs.
  { subst merged body.
    by rewrite (fetchFullBatchInBackground_success status full t1 st Hok). }
  rewrite (init_from_cache _ t1 t st merged quick nowQuick Hs Hlt).
  split; [apply processData_frame|]. split; [done|].
  intros Hne.
  assert (replaced = processData {| stocks := Some full |}
                       (cache_write {| stocks := Some full |} t1 st)) as E.
  { subst replaced body. simpl. rewrite Hok. simpl. by destruct full. }
  assert (sessionStorage replaced
          = sessionStorage (cache_write {| stocks := Some full |} t1 st)) as Hr.
  { rewrite E. apply processData_frame. }
  rewrite (init_from_cache _ t1 t st replaced quick nowQuick Hr Hlt).
  simpl. rewrite E at 1 3.
  by rewrite !(proj1 (proj2 (processData_frame _ _))).
Qed.

Lemma reload_after_stage2_shows_full_list_witness :
  let st := fst (fetchQuickBatch (success [quote "AAA" 10; quote "OLD" 1]) 1000 freshPage) in
  let merged :=
    fetchFullBatchInBackground (success [quote "AAA" 11; quote "BBB" 5]) 2000 st in
  allStocks merged = Some [quote "AAA" 10; quote "OLD" 1; quote "BBB" 5]
  ∧ allStocks (fst (init 3000 Rejected 0 merged))
    = Some [quote "AAA" 11; quote "BBB" 5].
Proof.
  destruct (reload_after_stage2_shows_full_list 200
              [quote "AAA" 11; quote "BBB" 5] 2000 3000
              (fst (fetchQuickBatch (success [quote "AAA" 10; quote "OLD" 1])
                      1000 freshPage)) Rejected 0)
    as (H1 & H2 & _).
  - reflexivity.
  - lia.
  - split; [exact H1 | exact H2].
Defined.

Lemma age_monotone (t t' : Z) (x : number) :
  (t <= t')%Z →
  num_lt (num_sub (of_Z t') x) (of_Z 300000) = true →
  num_lt (num_sub (of_Z t) x) (of_Z 300000) = true.
Proof.
  intros Hle. destruct x as [| | |q]; simpl; try done.
  rewrite !negb_true_iff, <- !not_true_iff_false, !Qle_bool_iff.
  intros H H'. apply H. eapply Qle_trans; [exact H'|].
  apply Qplus_le_compat; [|apply Qle_refl]. by rewrite <- Zle_Qle.
Qed.

(** X15: The cache check is monotone in time: an entry that is valid at some
    time is valid at every earlier time (a clock set back does not expire
    it), so once it has expired it stays expired.  This holds for any
    stored stamp, readable or not. *)
Theorem cache_validity_is_monotone (t t' : Z) (st : State) :
  (t <= t')%Z →
  (cacheValid t' st = true → cacheValid t st = true)
  ∧ (cacheValid t st = false → cacheValid t' st = false).
Proof.
  intros Hle.
  assert (cacheValid t' st = true → cacheValid t st = true) as H.
  { unfold cacheValid.
    destruct (getItem "wolfee_market_data" st) as [d|]; [|done].
    destruct (getItem "wolfee_cache_time" st) as [c|]; [|done].
    rewrite !andb_true_iff. intros [Hi Hlt]. split; [done|].
    by apply (age_monotone t t'). }
  split; [done|].
  intros Hf. destruct (cacheValid t' st) eqn:E; [|done].
  rewrite (H eq_refl) in Hf. discriminate Hf.
Qed.

Lemma cache_validity_is_monotone_witness :
  let st := cache_write {| stocks := Some [quote "AAA" 10] |} 1000 freshPage in
  cacheValid 500 st = true ∧ cacheValid 400000 st = false.
Proof.
  split.
  - apply (proj1 (cache_validity_is_monotone 500 2000
                    (cache_write {| stocks := Some [quote "AAA" 10] |} 1000 freshPage)
                    ltac:(lia))).
    reflexivity.
  - apply (proj2 (cache_validity_is_monotone 301000 400000
                    (cache_write {| stocks := Some [quote "AAA" 10] |} 1000 freshPage)
                    ltac:(lia))).
    reflexivity.
Defined.

(** ** Refresh, from end to end *)

(** X16: [refreshMarket] always goes to the network: after its removals the
    cache check fails at any time, stale stamp or not, and [init] calls
    stage 1.  The insight it removed is still absent when [init] settles.
    When stage 1 does not throw, [init] goes on to start stage 2 and the two
    loaders, and the insight loader, run on the state [init] left, finds
    nothing stored and fetches anew.  When stage 1 throws, stage 1 is the
    only call: no loader is started, and the failure notice is shown.
    On a success response with a list, the working set is the new list (the
    old one is dropped, not merged) and the snapshot and a fresh stamp are
    stored.  When stage 1 fails before its first write, the old working set
    is still in [window.allStocks], behind the failure notice, and the
    snapshot is gone. *)
Theorem refreshMarket_refetches
    (now nowQuick : Z) (quick : fetched) (ri : insightFetched) (st : State) :
  let after := fst (refreshMarket now quick nowQuick st) in
  let calls := snd (refreshMarket now quick nowQuick st) in
  let threw := snd (fetchQuickBatch quick nowQuick (refreshMarket_clear st)) in
  cacheValid now (refreshMarket_clear st) = false
  ∧ hd_error calls = Some CallFetchQuickBatch
  ∧ getItem "wolfee_ai_insight" after = None
  ∧ (threw = false →
     calls = [CallFetchQuickBatch; CallFetchFullBatchInBackground;
              CallLoadAIInsight; CallLoadOpportunities]
     ∧ insight_requested (loadAIInsight ri after) = true)
  ∧ (threw = true →
     calls = [CallFetchQuickBatch]
     ∧ stock_grid after = [Notice LoadFailed])
  ∧ (∀ status l,
       quick = Responded status (Json {| stocks := Some l |}) →
       ok status = true →
       threw = false
       ∧ allStocks after = Some l
       ∧ getItem "wolfee_market_data" after
         = Some (IData {| stocks := Some l |})
       ∧ getItem "wolfee_cache_time" after = Some (IText (toString nowQuick)))
  ∧ (failed quick = true →
     threw = true
     ∧ allStocks after = allStocks st
     ∧ getItem "wolfee_market_data" after = None).
Proof.
  intros after calls threw.
  assert (cacheValid now (refreshMarket_clear st) = false) as Hc.
  { unfold cacheValid. by rewrite getItem_refreshMarket_clear. }
  assert (getItem "wolfee_ai_insight" after = None) as Hi.
  { subst after. unfold refreshMarket. rewrite getItem_init by done.
    by rewrite getItem_refreshMarket_clear. }
  split; [done|].
  assert (insight_requested (loadAIInsight ri after) = true) as Hreq.
  { unfold loadAIInsight. rewrite Hi. by destruct ri as [|? [|[]]]. }
  subst after calls threw. unfold refreshMarket, init in *. rewrite Hc in *.
  split.
  { by destruct (fetchQuickBatch _ _ _) as [st' []]. }
  split; [done|]. split.
  { revert Hreq. destruct (fetchQuickBatch _ _ _) as [st' []]; simpl; [done|].
    by intros ->. }
  split.
  { by destruct (fetchQuickBatch _ _ _) as [st' []]. }
  split.
  - intros status l -> Hok. simpl. rewrite Hok. simpl.
    rewrite (proj1 (proj2 (processData_frame _ _))), !getItem_processData.
    by rewrite cache_write_data, cache_write_time.
  - intros Hf. rewrite (fetchQuickBatch_failed _ _ _ Hf). simpl.
    split; [done|]. split; [done|].
    change (getItem "wolfee_market_data" (refreshMarket_clear st) = None).
    by rewrite getItem_refreshMarket_clear.
Qed.

Lemma refreshMarket_refetches_witness :
  allStocks (fst (refreshMarket 5000 (success [quote "NEW" 3]) 5001 loadedPage))
  = Some [quote "NEW" 3]
  ∧ insight_requested
      (loadAIInsight InsightRejected
         (fst (refreshMarket 5000 (success [quote "NEW" 3]) 5001 loadedPage)))
    = true
  ∧ snd (refreshMarket 5000 Rejected 5001 loadedPage) = [CallFetchQuickBatch]
  ∧ allStocks (fst (refreshMarket 5000 Rejected 5001 loadedPage))
    = allStocks loadedPage.
Proof.
  destruct (refreshMarket_refetches 5000 5001 (success [quote "NEW" 3])
              InsightRejected loadedPage) as (_ & _ & _ & Hs & _ & H & _).
  destruct (refreshMarket_refetches 5000 5001 Rejected
              InsightRejected loadedPage) as (_ & _ & _ & _ & Hf & _ & H').
  split; [|split; [|split]].
  - apply (H 200%nat [quote "NEW" 3] eq_refl eq_refl).
  - apply Hs. reflexivity.
  - apply Hf. reflexivity.
  - apply H'. reflexivity.
Defined.

(** ** The AI insight *)

Lemma replaceNewlines_empty (s : string) :
  replaceNewlines s = "" ↔ s = "".
Proof.
  destruct s as [|c s]; simpl; [done|].
  destruct (Ascii.eqb c "010"); split; discriminate.
Qed.

Lemma includes_cons (c : ascii) (s q : string) :
  includes (String c s) q = String.prefix q (String c s) || includes s q.
Proof. reflexivity. Qed.

Lemma prefix_single (a c : ascii) (s : string) :
  String.prefix (String a "") (String c s) = if ascii_dec a c then true else false.
Proof.
  change (String.prefix (String a "") (String c s))
    with (if ascii_dec a c then String.prefix "" s else false).
  destruct (ascii_dec a c); [by destruct s|done].
Qed.

Lemma replaceNewlines_cons (c : ascii) (s : string) :
  replaceNewlines (String c s)
  = if Ascii.eqb c "010" then String.append "<br>" (replaceNewlines s)
    else String c (replaceNewlines s).
Proof. reflexivity. Qed.

Lemma replaceNewlines_no_newline (s : string) :
  includes (replaceNewlines s) (String "010" "") = false.
Proof.
  induction s as [|c s IH]; [done|].
  rewrite replaceNewlines_cons.
  destruct (Ascii.eqb_spec c "010") as [->|Hc].
  - rewrite !append_cons, append_empty, !includes_cons, !prefix_single, IH.
    reflexivity.
  - rewrite includes_cons, prefix_single, IH.
    destruct (ascii_dec "010" c) as [E|_]; [by subst c|]. reflexivity.
Qed.

(** X17: The insight is fetched once: when nothing is stored and the response
    (of any status) carries a non-empty insight, it is shown with every
    line break turned into a [<br>] and stored as shown; the next call
    fetches nothing, shows the stored text and changes nothing. *)
Theorem insight_is_fetched_once
    (status : nat) (insight : string) (again : insightFetched) (st : State) :
  getItem "wolfee_ai_insight" st = None →
  insight ≠ "" →
  let first := loadAIInsight (InsightResponded status (InsightJson (Some insight))) st in
  let second := loadAIInsight again (insight_state first) in
  insight_shown first = ShownFetched (replaceNewlines insight)
  ∧ includes (replaceNewlines insight) (String "010" "") = false
  ∧ insight_requested second = false
  ∧ insight_shown second = ShownCached (IText (replaceNewlines insight))
  ∧ insight_state second = insight_state first.
Proof.
  intros Hnone Hne first second.
  assert (first
          = {| insight_state :=
                 setItem "wolfee_ai_insight" (IText (replaceNewlines insight)) st;
               insight_shown := ShownFetched (replaceNewlines insight);
               insight_requested := true |}) as E1.
  { subst first. unfold loadAIInsight. by rewrite Hnone. }
  subst second. rewrite E1. cbn [insight_state insight_shown].
  split; [done|]. split; [apply replaceNewlines_no_newline|].
  unfold loadAIInsight, getItem, setItem. simpl. rewrite lookup_insert_eq.
  assert (String.eqb (replaceNewlines insight) "" = false) as E.
  { apply String.eqb_neq. by rewrite replaceNewlines_empty. }
  simpl. by rewrite E.
Qed.

Lemma insight_is_fetched_once_witness :
  let first :=
    loadAIInsight (InsightResponded 200 (InsightJson (Some "Calm.
Buy."))) freshPage in
  insight_shown first = ShownFetched "Calm.<br>Buy."
  ∧ insight_requested (loadAIInsight InsightRejected (insight_state first)) = false.
Proof.
  destruct (insight_is_fetched_once 200 "Calm.
Buy." InsightRejected freshPage) as (H1 & _ & H3 & _).
  - reflexivity.
  - discriminate.
  - split; [exact H1 | exact H3].
Defined.

(** X18: A load that got no insight (request rejected, body not JSON, no
    [insight] string) shows the offline line and stores nothing, and an
    empty insight is stored but is no cache hit: in both cases, and only
    then, the next call fetches again. *)
Theorem insight_failure_is_retried
    (r again : insightFetched) (st : State) :
  getItem "wolfee_ai_insight" st = None →
  let first := loadAIInsight r st in
  (insight_requested (loadAIInsight again (insight_state first)) = false
   ↔ ∃ status insight,
       r = InsightResponded status (InsightJson (Some insight)) ∧ insight ≠ "")
  ∧ (insight_shown first = ShownOffline → insight_state first = st).
Proof.
  intros Hnone first.
  assert (first = loadAIInsight_fetch r st) as E1.
  { subst first. unfold loadAIInsight. by rewrite Hnone. }
  rewrite E1. clear E1 first.
  assert (∀ s, insight_requested (loadAIInsight again s) = false
               ↔ ∃ c, getItem "wolfee_ai_insight" s = Some c ∧ item_truthy c = true)
    as Hhit.
  { intros s. unfold loadAIInsight.
    destruct (getItem "wolfee_ai_insight" s) as [c|].
    - destruct (item_truthy c) eqn:E; simpl.
      + split; [by exists c|done].
      + split; [by destruct again as [|? [|[]]]|].
        intros (c' & [= <-] & H). congruence.
    - split; [by destruct again as [|? [|[]]]|]. by intros (c & H & _). }
  split.
  - rewrite Hhit. destruct r as [|status [|[insight|]]]; simpl.
    + rewrite Hnone. split; [by intros (c & H & _)|by intros (? & ? & H & _)].
    + rewrite Hnone. split; [by intros (c & H & _)|by intros (? & ? & H & _)].
    + unfold getItem, setItem. simpl. rewrite lookup_insert_eq. split.
      * intros (c & [= <-] & H). exists status, insight. split; [done|].
        simpl in H. apply negb_true_iff, String.eqb_neq in H.
        by rewrite replaceNewlines_empty in H.
      * intros (status' & insight' & [= _ <-] & Hne).
        exists (IText (replaceNewlines insight)). split; [done|]. simpl.
        apply negb_true_iff, String.eqb_neq. by rewrite replaceNewlines_empty.
    + rewrite Hnone. split; [by intros (c & H & _)|by intros (? & ? & H & _)].
  - by destruct r as [|status [|[insight|]]].
Qed.

Lemma insight_failure_is_retried_witness :
  insight_state (loadAIInsight (InsightResponded 500 InsightNotJson) freshPage)
  = freshPage.
Proof.
  apply (proj2 (insight_failure_is_retried
                  (InsightResponded 500 InsightNotJson) InsightRejected freshPage
                  eq_refl)).
  reflexivity.
Defined.

(** ** Who writes the portfolio *)

Lemma getItem_fetchFullBatchInBackground (k : string) r now st :
  k ≠ "wolfee_market_data" → k ≠ "wolfee_cache_time" →
  getItem k (fetchFullBatchInBackground r now st) = getItem k st.
Proof.
  intros H1 H2. apply String.eqb_neq in H1, H2.
  destruct r as [|status [|[[incoming|]]|]]; simpl; try done;
    destruct (ok status) eqn:Hok; simpl; try done.
  - pose proof (fetchFullBatchInBackground_success status incoming now st Hok) as E.
    simpl in E. rewrite Hok in E. simpl in E. rewrite E.
    change (getItem k (cache_write {| stocks := Some incoming |} now st)
            = getItem k st).
    by rewrite getItem_cache_write, H2, H1.
  - by rewrite getItem_cache_write, H2, H1.
  - by rewrite getItem_cache_write_null, H2, H1.
Qed.

Lemma getItem_fetchFullBatch (k : string) r now st :
  k ≠ "wolfee_market_data" → k ≠ "wolfee_cache_time" →
  getItem k (fetchFullBatch r now st) = getItem k st.
Proof.
  intros H1 H2. apply String.eqb_neq in H1, H2.
  destruct r as [|status [|[[[|x l]|]]|]]; simpl; try done;
    destruct (ok status); simpl; try done.
  by rewrite getItem_processData, getItem_cache_write, H2, H1.
Qed.

Lemma getPortfolio_getItem (a b : State) :
  getItem "wolfee_portfolio" a = getItem "wolfee_portfolio" b →
  getPortfolio a = getPortfolio b.
Proof. intros H. unfold getPortfolio. by rewrite H. Qed.

(** X19: The portfolio holds copies: neither stage, [processData], [init],
    a refresh, a filter run nor the insight loader changes the stored
    portfolio, so an entry keeps the values the record had when it was
    added, whatever the working set becomes. *)
Theorem portfolio_entries_are_snapshots
    (localeCompare : string -> string -> Z) (st : State) (data : MarketData)
    (r quick : fetched) (ri : insightFetched) (i : FilterInputs)
    (now nowQuick : Z) :
  getPortfolio (processData data st) = getPortfolio st
  ∧ getPortfolio (fst (fetchQuickBatch r now st)) = getPortfolio st
  ∧ getPortfolio (fetchFullBatchInBackground r now st) = getPortfolio st
  ∧ getPortfolio (fetchFullBatch r now st) = getPortfolio st
  ∧ getPortfolio (fst (init now quick nowQuick st)) = getPortfolio st
  ∧ getPortfolio (fst (refreshMarket now quick nowQuick st)) = getPortfolio st
  ∧ getPortfolio (applyFilters localeCompare i st) = getPortfolio st
  ∧ getPortfolio (insight_state (loadAIInsight ri st)) = getPortfolio st.
Proof.
  repeat split; apply getPortfolio_getItem.
  - apply getItem_processData.
  - by apply getItem_fetchQuickBatch.
  - by apply getItem_fetchFullBatchInBackground.
  - by apply getItem_fetchFullBatch.
  - by apply getItem_init.
  - unfold refreshMarket. rewrite getItem_init by done.
    by rewrite getItem_refreshMarket_clear.
  - by rewrite applyFilters_with_grid.
  - unfold loadAIInsight.
    assert (getItem "wolfee_portfolio" (insight_state (loadAIInsight_fetch ri st))
            = getItem "wolfee_portfolio" st) as H.
    { destruct ri as [|? [|[t|]]]; simpl; try done.
      unfold getItem, setItem. simpl. by rewrite lookup_insert_ne. }
    destruct (getItem "wolfee_ai_insight" st) as [c|]; [|done].
    by destruct (item_truthy c).
Qed.

(** X20: [togglePortfolioItem] writes the key [wolfee_portfolio] and nothing
    else: the market cache, the insight, the working set, the current
    symbol, the region switch and the stock grid are as they were. *)
Theorem toggle_writes_portfolio_only (st : State) (k : string) :
  k ≠ "wolfee_portfolio" →
  getItem k (togglePortfolioItem st) = getItem k st
  ∧ allStocks (togglePortfolioItem st) = allStocks st
  ∧ currentSymbol (togglePortfolioItem st) = currentSymbol st
  ∧ region_toggle (togglePortfolioItem st) = region_toggle st
  ∧ stock_grid (togglePortfolioItem st) = stock_grid st
  ∧ (∀ t, cacheValid t (togglePortfolioItem st) = cacheValid t st).
Proof.
  intros Hk. rewrite togglePortfolioItem_resolve.
  destruct (resolve st) as [stock|]; [|done].
  destruct (getPortfolio st) as [p|]; [|done].
  unfold savePortfolio, setItem, getItem, cacheValid, getItem. simpl.
  by rewrite !lookup_insert_ne.
Qed.

Lemma toggle_writes_portfolio_only_witness :
  getItem "wolfee_market_data" (togglePortfolioItem viewingAAA)
  = getItem "wolfee_market_data" viewingAAA.
Proof.
  apply (toggle_writes_portfolio_only viewingAAA "wolfee_market_data").
  discriminate.
Defined.

(** ** The keys of the merged working set *)

Lemma mergeAll_prefix (snapshots : list (list Stock)) :
  ∀ ws, workingSet ws `prefix_of` workingSet (mergeAll ws snapshots).
Proof.
  induction snapshots as [|s snapshots IH]; intros ws; simpl; [done|].
  etrans; [|apply IH]. rewrite merge_workingSet. by apply prefix_app_r.
Qed.

(** X21: After a merge the working set has exactly the symbols it had and
    those of the incoming list, and at most as many more records as came
    in.  Over any sequence of merges the working set only grows at its
    end: what was in it stays, in place. *)
Theorem merge_covers_incoming_symbols
    (ws : option (list Stock)) (incoming : list Stock)
    (snapshots : list (list Stock)) :
  let merged := workingSet (fst (merge ws incoming)) in
  (∀ k, k ∈ (symbol <$> merged)
        ↔ k ∈ (symbol <$> workingSet ws) ∨ k ∈ (symbol <$> incoming))
  ∧ (length merged <= length (workingSet ws) + length incoming)%nat
  ∧ workingSet ws `prefix_of` workingSet (mergeAll ws snapshots).
Proof.
  simpl. split; [|split; [|apply mergeAll_prefix]].
  - intros k. rewrite merge_workingSet, merge_delta, fmap_app, elem_of_app.
    split.
    + intros [H|H]; [by left|]. right.
      apply list_elem_of_fmap in H as (r & -> & Hr).
      apply newStocksOf_elem_of in Hr as [Hr _].
      apply list_elem_of_fmap. by exists r.
    + intros [H|H]; [by left|].
      destruct (decide (k ∈ (symbol <$> workingSet ws))) as [Hin|Hout]; [by left|].
      right. apply list_elem_of_fmap in H as (r & -> & Hr).
      apply list_elem_of_fmap. exists r. split; [done|].
      by apply newStocksOf_elem_of.
  - rewrite merge_workingSet, merge_delta, length_app.
    apply Nat.add_le_mono_l. unfold newStocksOf.
    apply sublist_length, filter_sublist.
Qed.

(** ** The portfolio button *)

Lemma inPortfolio_toggled (k : string) (stock : Stock) (p : list Stock) :
  symbol stock = k → NoDup (symbol <$> p) →
  inPortfolio k (toggled k stock p) = negb (inPortfolio k p).
Proof.
  intros Hk Hnd. destruct (inPortfolio k p) eqn:E; simpl.
  - by apply (toggled_twice k stock p Hk Hnd).
  - rewrite (toggled_absent _ _ _ E). apply inPortfolio_elem_of.
    rewrite fmap_app, elem_of_app. right. simpl. rewrite Hk. by left.
Qed.

(** X22: The button says "Remove" exactly when the current record is in the
    portfolio, and a toggle of a resolved key flips it. *)
Theorem button_follows_membership (st : State) (stock : Stock) :
  portfolioReachable st →
  resolve st = Some stock →
  ∃ p,
    getPortfolio st = Some p
    ∧ updatePortfolioButtonUI st
      = Some (if inPortfolio (symbol stock) p then RemoveLabel else AddLabel)
    ∧ updatePortfolioButtonUI (togglePortfolioItem st)
      = Some (if inPortfolio (symbol stock) p then AddLabel else RemoveLabel).
Proof.
  intros Hreach Hr.
  destruct (portfolioReachable_NoDup st Hreach) as (p & Hp & Hnd).
  exists p. split; [done|].
  pose proof (resolve_symbol st stock Hr) as Hcur.
  assert (String.eqb (symbol stock) "" = false) as Hne.
  { unfold resolve in Hr. rewrite Hcur in Hr.
    destruct (allStocks st); [|done]. by destruct (String.eqb (symbol stock) ""). }
  assert (∀ s q, currentSymbol s = Some (symbol stock) → getPortfolio s = Some q →
                 updatePortfolioButtonUI s
                 = Some (if inPortfolio (symbol stock) q
                         then RemoveLabel else AddLabel)) as Hbtn.
  { intros s q Hc Hq. unfold updatePortfolioButtonUI. by rewrite Hc, Hne, Hq. }
  split; [by apply Hbtn|].
  rewrite togglePortfolioItem_resolve, Hr, Hp.
  rewrite (Hbtn _ (toggled (symbol stock) stock p)); [|done|apply savePortfolio_frame].
  rewrite inPortfolio_toggled by done.
  by destruct (inPortfolio (symbol stock) p).
Qed.

Lemma button_follows_membership_witness :
  updatePortfolioButtonUI viewingAAA = Some AddLabel
  ∧ updatePortfolioButtonUI (togglePortfolioItem viewingAAA) = Some RemoveLabel.
Proof.
  destruct (button_follows_membership viewingAAA (quote "AAA" 10))
    as (p & Hp & H1 & H2).
  - apply reach_start. reflexivity.
  - reflexivity.
  - injection Hp as <-. split; [exact H1 | exact H2].
Defined.
